(** * TensorX backend: session authentication and owner-scoped bot records

    A shallow embedding of [api/index.py].  The relational store is a
    triple of tables (lists of rows); every handler is a function from the
    store before the request to an outcome (a value or an [HTTPException])
    and the store after it.  The clock and the UUID generator are explicit
    inputs of each request, the identity exchange is a parameter. *)

From Stdlib Require Import ZArith PrimFloat Ascii String.
From stdpp Require Import gmap strings list fin_maps sorting.

Local Open Scope string_scope.
Local Open Scope Z_scope.

(** ** JSON values and Python helpers *)

(** What [request.json()] yields and what a [jsonb] column holds. *)
#[warnings="-register-all"]
Inductive json :=
| JNull
| JBool (b : bool)
| JInt (z : Z)
| JFloat (f : float)
| JString (s : string)
| JArray (l : list json)
| JObject (m : gmap string json).

(** Whether a string holds the character NUL. *)
Fixpoint str_has_nul (s : string) : bool :=
  match s with
  | EmptyString => false
  | String c s' => Ascii.eqb c Ascii.zero || str_has_nul s'
  end.

(** [%s::jsonb] applied to the text [json.dumps] writes for a value: the
    cast rejects the tokens [NaN] and [Infinity], which [json.dumps] writes
    for a float that is not finite, and the escape [\u0000], which it
    writes for a NUL character in a string or in a key.  The statement
    that holds the cast then raises. *)
Fixpoint jsonb_accepts (j : json) : bool :=
  match j with
  | JNull | JBool _ | JInt _ => true
  | JFloat f => negb (PrimFloat.is_nan f || PrimFloat.is_infinity f)
  | JString s => negb (str_has_nul s)
  | JArray l => forallb jsonb_accepts l
  | JObject m =>
      map_fold (fun k v acc => negb (str_has_nul k) && jsonb_accepts v && acc)
               true m
  end.

Arguments jsonb_accepts : simpl never.

(** Python truthiness of the values the handlers test with [if x:]. *)
Definition str_truthy (s : string) : bool :=
  match s with EmptyString => false | String _ _ => true end.

Definition opt_str_truthy (o : option string) : bool :=
  match o with Some s => str_truthy s | None => false end.

Definition dict_truthy (m : gmap string json) : bool :=
  negb (bool_decide (m = ∅)).

Definition opt_dict_truthy (o : option (gmap string json)) : bool :=
  match o with Some m => dict_truthy m | None => false end.

(** [s.split(sep)] for a one-character separator: the first field and the
    list of the following ones. *)
Fixpoint split_fields (sep : ascii) (s : string) : string * list string :=
  match s with
  | EmptyString => (EmptyString, [])
  | String c s' =>
      let '(w, ws) := split_fields sep s' in
      if Ascii.eqb c sep then (EmptyString, w :: ws) else (String c w, ws)
  end.

Definition str_split (sep : ascii) (s : string) : list string :=
  let '(w, ws) := split_fields sep s in w :: ws.

(** [s.startswith(p)] *)
Definition startswith (p s : string) : bool := String.prefix p s.

(** [uuid.uuid4()]: the 32 hexadecimal digits of a generated identifier. *)
Record uuid := { hex : string }.

(** [str(u)]: the digits in groups of 8-4-4-4-12. *)
Definition uuid_str (u : uuid) : string :=
  let h := hex u in
  String.substring 0 8 h +:+ "-" +:+ String.substring 8 4 h +:+ "-" +:+
  String.substring 12 4 h +:+ "-" +:+ String.substring 16 4 h +:+ "-" +:+
  String.substring 20 12 h.

(** Timestamps count microseconds; [timedelta(days=n)]. *)
Definition timestamp := Z.

Definition timedelta_days (n : Z) : Z := n * 24 * 60 * 60 * 1000000.

(** ** HTTP requests and failures *)

(** The part of a [Request] the handlers read.  Header names are stored
    under the spelling the handler asks for. *)
Record Request := {
  cookies : gmap string string;
  headers : gmap string string
}.

Record HTTPException := {
  status_code : Z;
  detail : string
}.

(** What a handler does: it returns, or it raises.  An exception that is
    no [HTTPException] (a failed statement, an exchange that does not
    answer) is caught by the server, which answers 500; it is written as
    the failure with that status. *)
Inductive result (A : Type) :=
| Ok (a : A)
| Raise (e : HTTPException).

Arguments Ok {A} a.
Arguments Raise {A} e.

(** State-and-exception monad: a computation over a state [S] that returns
    or raises, and leaves a state behind either way. *)
Definition St (S A : Type) : Type := S -> result A * S.

Definition ret {S A} (a : A) : St S A := fun s => (Ok a, s).

Definition raise {S A} (code : Z) (msg : string) : St S A :=
  fun s => (Raise {| status_code := code; detail := msg |}, s).

Definition bind {S A B} (m : St S A) (k : A -> St S B) : St S B :=
  fun s =>
    match m s with
    | (Ok a, s') => k a s'
    | (Raise e, s') => (Raise e, s')
    end.

#[global] Instance St_ret {S} : MRet (St S) := fun A a => ret a.
#[global] Instance St_bind {S} : MBind (St S) := fun A B k m => bind m k.

Definition gets {S A} (f : S -> A) : St S A := fun s => (Ok (f s), s).

Definition modify {S} (f : S -> S) : St S unit := fun s => (Ok tt, f s).

(** ** Tables *)

(** Modelled from the spec: the tables' declarations are not in the
    source.  The columns are those the statements read and write; their
    types follow the data model ([settings] is a JSON mapping, never
    null).  A bot's [status] is the text the statements write: the source
    passes any string to the store, and whether the table narrows the
    column to the values of the data model is not decided by it. *)
Module User.
Record row := {
  user_id : string;
  email : string;
  name : string;
  picture : option string;
  onboarding_completed : bool;
  settings : gmap string json
}.
End User.

Module Session.
Record row := {
  session_id : string;
  user_id : string;
  session_token : string;
  expires_at : timestamp
}.
End Session.

Module Bot.
Record row := {
  bot_id : string;
  user_id : string;
  name : string;
  strategy : string;
  trading_pair : string;
  exchange : string;
  initial_investment : float;
  current_value : float;
  is_virtual : bool;
  settings : gmap string json;
  status : string;
  created_at : timestamp;
  updated_at : timestamp
}.
End Bot.

Record db := {
  users : list User.row;
  sessions : list Session.row;
  bots : list Bot.row
}.

Definition empty_db : db := {| users := []; sessions := []; bots := [] |}.

(** A connection: the committed store and the transaction's own view of
    it.  [conn.commit()] publishes the view; [conn.close()] drops it. *)
Record connection := {
  committed : db;
  view : db
}.

Definition commit : St connection unit :=
  modify (fun c => {| committed := view c; view := view c |}).

(** [conn = get_db_connection(); try: body finally: conn.close()] *)
Definition with_connection {A} (body : St connection A) : St db A :=
  fun d =>
    let '(r, c) := body {| committed := d; view := d |} in
    (r, committed c).

(** [cur.fetchone()] *)
Definition fetchone {A} (rows : list A) : option A := head rows.

(** [cur.execute] of a query, of a statement, and of a statement with a
    [RETURNING] clause, all against the transaction's view. *)
Definition query {A} (q : db -> A) : St connection A :=
  gets (fun c => q (view c)).

Definition execute (stmt : db -> db) : St connection unit :=
  modify (fun c => {| committed := committed c; view := stmt (view c) |}).

Definition execute_returning {A} (stmt : db -> list A * db)
  : St connection (list A) :=
  fun c =>
    let '(rows, d) := stmt (view c) in
    (Ok rows, {| committed := committed c; view := d |}).

(** [UPDATE t SET ... WHERE p RETURNING *] on one table: the rows that
    satisfy [p] are rewritten in place and returned. *)
Definition update_where {A} (P : A -> Prop) `{!∀ r, Decision (P r)}
    (f : A -> A) (t : list A) : list A * list A :=
  (f <$> filter P t, (fun r => if decide (P r) then f r else r) <$> t).

(** [DELETE FROM t WHERE p RETURNING *] *)
Definition delete_where {A} (P : A -> Prop) `{!∀ r, Decision (P r)}
    (t : list A) : list A * list A :=
  (filter P t, filter (fun r => ¬ P r) t).

(** [jsonb || jsonb] on two objects: the keys of the right operand win. *)
Definition jsonb_concat (a b : gmap string json) : gmap string json := b ∪ a.

(** ** Request and response bodies *)

Module UserResponse.
Record t := {
  user_id : string;
  email : string;
  name : string;
  picture : option string;
  onboarding_completed : bool
}.
End UserResponse.

(** The dictionary built from a user row by [create_session] and [get_me]. *)
Definition user_response (user : User.row) : UserResponse.t :=
  {| UserResponse.user_id := User.user_id user;
     UserResponse.email := User.email user;
     UserResponse.name := User.name user;
     UserResponse.picture := User.picture user;
     UserResponse.onboarding_completed := User.onboarding_completed user |}.

Module BotCreate.
Record t := {
  name : string;
  strategy : string;
  trading_pair : string;
  exchange : string;
  initial_investment : float;
  is_virtual : bool;
  settings : gmap string json
}.

(** The model's constructor: four required fields, three with defaults. *)
Definition init (name strategy trading_pair exchange : string)
    (initial_investment : option float) (is_virtual : option bool)
    (settings : option (gmap string json)) : t :=
  {| name := name;
     strategy := strategy;
     trading_pair := trading_pair;
     exchange := exchange;
     initial_investment := default 1000%float initial_investment;
     is_virtual := default true is_virtual;
     settings := default ∅ settings |}.
End BotCreate.

Module BotUpdate.
Record t := {
  name : option string;
  status : option string;
  settings : option (gmap string json)
}.
End BotUpdate.

(** What the identity exchange answers: a status and, on 200, the profile
    ([session_token], also in the answer, is never read). *)
Record AuthData := {
  auth_email : string;
  auth_name : string;
  auth_picture : option string
}.

Record AuthResponse := {
  auth_status_code : Z;
  auth_json : AuthData
}.

Record SetCookie := {
  cookie_key : string;
  cookie_value : string;
  cookie_httponly : bool;
  cookie_secure : bool;
  cookie_samesite : string;
  cookie_path : string;
  cookie_max_age : Z
}.

Record SessionCreated := {
  created_user : UserResponse.t;
  created_session_token : string;
  created_cookie : SetCookie
}.

Record DeleteCookie := {
  deleted_key : string;
  deleted_path : string
}.

Record LoggedOut := {
  logout_message : string;
  logout_cookie : DeleteCookie
}.

Record OnboardingDone := {
  onboarding_message : string;
  onboarding_flag : bool
}.

Record Message := { message : string }.

(** The three identifiers [create_session] draws, in the order of the
    calls (the first only for a new user). *)
Record session_uuids := {
  uuid_user : uuid;
  uuid_token : uuid;
  uuid_session : uuid
}.

(** ** Session token extraction *)

Definition get_session_token (request : Request) : option string :=
  let token := cookies request !! "session_token" in
  if opt_str_truthy token then token
  else
    match headers request !! "Authorization" with
    | Some auth_header =>
        if str_truthy auth_header && startswith "Bearer " auth_header
        then str_split " " auth_header !! 1%nat
        else None
    | None => None
    end.

(** ** Statements *)

(** [SELECT u.* FROM users u JOIN sessions s ON u.user_id = s.user_id
     WHERE s.session_token = token AND s.expires_at > NOW()] *)
Definition select_user_by_session (token : string) (now : timestamp) (d : db)
  : list User.row :=
  u ← users d;
  s ← sessions d;
  if bool_decide (User.user_id u = Session.user_id s)
     && bool_decide (Session.session_token s = token)
     && bool_decide (now < Session.expires_at s)
  then [u] else [].

(** [SELECT * FROM users WHERE email = email] *)
Definition select_users_by_email (email : string) (d : db) : list User.row :=
  filter (fun u => User.email u = email) (users d).

Definition set_name_picture (name : string) (picture : option string)
    (u : User.row) : User.row :=
  {| User.user_id := User.user_id u;
     User.email := User.email u;
     User.name := name;
     User.picture := picture;
     User.onboarding_completed := User.onboarding_completed u;
     User.settings := User.settings u |}.

(** [UPDATE users SET name = .., picture = .. WHERE email = .. RETURNING *] *)
Definition update_user_profile (name : string) (picture : option string)
    (email : string) (d : db) : list User.row * db :=
  let '(rows, t) :=
    update_where (fun u => User.email u = email)
                 (set_name_picture name picture) (users d) in
  (rows, {| users := t; sessions := sessions d; bots := bots d |}).

(** Modelled from the spec: the [users] table's declaration is not in the
    source.  A row inserted without them gets [onboarding_completed] false
    and [settings] the empty mapping.

    [INSERT INTO users (user_id, email, name, picture) VALUES .. RETURNING *] *)
Definition insert_user (user_id email name : string) (picture : option string)
    (d : db) : list User.row * db :=
  let row := {| User.user_id := user_id;
                User.email := email;
                User.name := name;
                User.picture := picture;
                User.onboarding_completed := false;
                User.settings := ∅ |} in
  ([row], {| users := users d ++ [row]; sessions := sessions d; bots := bots d |}).

(** [DELETE FROM sessions WHERE user_id = user_id] *)
Definition delete_sessions_of_user (user_id : string) (d : db) : db :=
  {| users := users d;
     sessions := (delete_where (fun s => Session.user_id s = user_id)
                               (sessions d)).2;
     bots := bots d |}.

(** [DELETE FROM sessions WHERE session_token = token] *)
Definition delete_sessions_by_token (token : string) (d : db) : db :=
  {| users := users d;
     sessions := (delete_where (fun s => Session.session_token s = token)
                               (sessions d)).2;
     bots := bots d |}.

(** [INSERT INTO sessions (session_id, user_id, session_token, expires_at)] *)
Definition insert_session (session_id user_id session_token : string)
    (expires_at : timestamp) (d : db) : db :=
  {| users := users d;
     sessions := sessions d ++
       [{| Session.session_id := session_id;
           Session.user_id := user_id;
           Session.session_token := session_token;
           Session.expires_at := expires_at |}];
     bots := bots d |}.

Definition complete_user (payload : gmap string json) (u : User.row)
  : User.row :=
  {| User.user_id := User.user_id u;
     User.email := User.email u;
     User.name := User.name u;
     User.picture := User.picture u;
     User.onboarding_completed := true;
     User.settings := jsonb_concat (User.settings u) payload |}.

(** [UPDATE users SET onboarding_completed = TRUE,
     settings = settings || payload::jsonb WHERE user_id = user_id] *)
Definition update_user_onboarding (payload : gmap string json)
    (user_id : string) (d : db) : db :=
  {| users := (update_where (fun u => User.user_id u = user_id)
                            (complete_user payload) (users d)).2;
     sessions := sessions d;
     bots := bots d |}.

(** ** Authentication handlers *)

Definition get_current_user (now : timestamp) (request : Request)
  : St db User.row :=
  match get_session_token request with
  | Some token =>
      if str_truthy token then
        with_connection (
          user ← query (fun d =>
                    fetchone (select_user_by_session token now d));
          match user with
          | Some user => ret user
          | None => raise 401 "Invalid or expired session"
          end)
      else raise 401 "Not authenticated"
  | None => raise 401 "Not authenticated"
  end.

(** The fixed identity behind the testing bypass. *)
Definition test_auth_data : AuthData :=
  {| auth_email := "test@tensorx.com";
     auth_name := "Test User";
     auth_picture :=
       Some "https://ui-avatars.com/api/?name=Test+User&background=06b6d4&color=fff" |}.

Definition session_cookie (session_token : string) : SetCookie :=
  {| cookie_key := "session_token";
     cookie_value := session_token;
     cookie_httponly := true;
     cookie_secure := true;
     cookie_samesite := "none";
     cookie_path := "/";
     cookie_max_age := 7 * 24 * 60 * 60 |}.

Section Exchange.

(** The identity exchange: the answer to a GET carrying [X-Session-ID],
    or [None] when the GET raises instead of answering (no answer within
    30 seconds, a transport error). *)
Variable emergent_auth : string -> option AuthResponse.

(** The profile behind a [session_id]: the bypass, or the exchange. *)
Definition exchange_session_id (session_id : string) : St db AuthData :=
  if bool_decide (session_id = "test_session_id") then ret test_auth_data
  else
    match emergent_auth session_id with
    | None => raise 500 "Internal Server Error"
    | Some auth_response =>
        if negb (auth_status_code auth_response =? 200)
        then raise 401 "Invalid session_id"
        else ret (auth_json auth_response)
    end.

(** [POST /api/auth/session]; [session_id] is [body.get("session_id")]. *)
Definition create_session (now : timestamp) (rng : session_uuids)
    (session_id : option string) : St db SessionCreated :=
  if negb (opt_str_truthy session_id)
  then raise 400 "session_id required"
  else
    auth_data ← exchange_session_id (default "" session_id);
    let email := auth_email auth_data in
    let name := auth_name auth_data in
    let picture := auth_picture auth_data in
    with_connection (
      user ← query (fun d => fetchone (select_users_by_email email d));
      user ← match user with
              | Some _ =>
                  rows ← execute_returning
                            (update_user_profile name picture email);
                  ret (fetchone rows)
              | None =>
                  let user_id :=
                    "user_" +:+ String.substring 0 12 (hex (uuid_user rng)) in
                  rows ← execute_returning
                            (insert_user user_id email name picture);
                  ret (fetchone rows)
              end;
      match user with
      | None => raise 500 "Internal Server Error"
      | Some user =>
          let session_token := "sess_" +:+ hex (uuid_token rng) in
          let session_id_new := uuid_str (uuid_session rng) in
          let expires_at := now + timedelta_days 7 in
          _ ← execute (delete_sessions_of_user (User.user_id user));
          _ ← execute (insert_session session_id_new (User.user_id user)
                                       session_token expires_at);
          _ ← commit;
          ret {| created_user := user_response user;
                 created_session_token := session_token;
                 created_cookie := session_cookie session_token |}
      end).

End Exchange.

(** [GET /api/auth/me] *)
Definition get_me (now : timestamp) (request : Request)
  : St db UserResponse.t :=
  user ← get_current_user now request;
  ret (user_response user).

(** [POST /api/auth/logout] *)
Definition logout (request : Request) : St db LoggedOut :=
  let token := get_session_token request in
  _ ← (if opt_str_truthy token then
          with_connection (
            _ ← execute (delete_sessions_by_token (default "" token));
            commit)
        else ret tt);
  ret {| logout_message := "Logged out successfully";
         logout_cookie := {| deleted_key := "session_token";
                             deleted_path := "/" |} |}.

(** [POST /api/auth/complete-onboarding]; [body] is the JSON object sent.
    The statement casts the text of [{"onboarding": onboarding_data}] to
    [jsonb]; when the cast fails the statement raises, and the connection
    is closed with nothing committed. *)
Definition complete_onboarding (now : timestamp) (request : Request)
    (body : gmap string json) : St db OnboardingDone :=
  user ← get_current_user now request;
  let onboarding_data := default (JObject ∅) (body !! "data") in
  _ ← with_connection (
         _ ← (if jsonb_accepts (JObject {[ "onboarding" := onboarding_data ]})
               then execute (update_user_onboarding
                               {[ "onboarding" := onboarding_data ]}
                               (User.user_id user))
               else raise 500 "Internal Server Error");
         commit);
  ret {| onboarding_message := "Onboarding completed";
         onboarding_flag := true |}.

(** ** Bot statements *)

Definition set_bot_name (v : string) (b : Bot.row) : Bot.row :=
  {| Bot.bot_id := Bot.bot_id b; Bot.user_id := Bot.user_id b;
     Bot.name := v; Bot.strategy := Bot.strategy b;
     Bot.trading_pair := Bot.trading_pair b; Bot.exchange := Bot.exchange b;
     Bot.initial_investment := Bot.initial_investment b;
     Bot.current_value := Bot.current_value b;
     Bot.is_virtual := Bot.is_virtual b; Bot.settings := Bot.settings b;
     Bot.status := Bot.status b; Bot.created_at := Bot.created_at b;
     Bot.updated_at := Bot.updated_at b |}.

Definition set_bot_status (v : string) (b : Bot.row) : Bot.row :=
  {| Bot.bot_id := Bot.bot_id b; Bot.user_id := Bot.user_id b;
     Bot.name := Bot.name b; Bot.strategy := Bot.strategy b;
     Bot.trading_pair := Bot.trading_pair b; Bot.exchange := Bot.exchange b;
     Bot.initial_investment := Bot.initial_investment b;
     Bot.current_value := Bot.current_value b;
     Bot.is_virtual := Bot.is_virtual b; Bot.settings := Bot.settings b;
     Bot.status := v; Bot.created_at := Bot.created_at b;
     Bot.updated_at := Bot.updated_at b |}.

Definition set_bot_settings (v : gmap string json) (b : Bot.row) : Bot.row :=
  {| Bot.bot_id := Bot.bot_id b; Bot.user_id := Bot.user_id b;
     Bot.name := Bot.name b; Bot.strategy := Bot.strategy b;
     Bot.trading_pair := Bot.trading_pair b; Bot.exchange := Bot.exchange b;
     Bot.initial_investment := Bot.initial_investment b;
     Bot.current_value := Bot.current_value b;
     Bot.is_virtual := Bot.is_virtual b; Bot.settings := v;
     Bot.status := Bot.status b; Bot.created_at := Bot.created_at b;
     Bot.updated_at := Bot.updated_at b |}.

Definition set_bot_updated_at (v : timestamp) (b : Bot.row) : Bot.row :=
  {| Bot.bot_id := Bot.bot_id b; Bot.user_id := Bot.user_id b;
     Bot.name := Bot.name b; Bot.strategy := Bot.strategy b;
     Bot.trading_pair := Bot.trading_pair b; Bot.exchange := Bot.exchange b;
     Bot.initial_investment := Bot.initial_investment b;
     Bot.current_value := Bot.current_value b;
     Bot.is_virtual := Bot.is_virtual b; Bot.settings := Bot.settings b;
     Bot.status := Bot.status b; Bot.created_at := Bot.created_at b;
     Bot.updated_at := v |}.

(** One [column = value] item of an [UPDATE bots SET ...] list. *)
Inductive assignment :=
| SetName (v : string)
| SetStatus (v : string)
| SetSettings (v : gmap string json)
| SetUpdatedAtNow.

Definition assign (now : timestamp) (b : Bot.row) (a : assignment) : Bot.row :=
  match a with
  | SetName v => set_bot_name v b
  | SetStatus v => set_bot_status v b
  | SetSettings v => set_bot_settings v b
  | SetUpdatedAtNow => set_bot_updated_at now b
  end.

(** The [WHERE bot_id = %s AND user_id = %s] of every single-bot statement. *)
Definition bot_scope (bot_id user_id : string) (b : Bot.row) : Prop :=
  Bot.bot_id b = bot_id ∧ Bot.user_id b = user_id.

#[global] Instance bot_scope_dec bot_id user_id b
  : Decision (bot_scope bot_id user_id b) :=
  and_dec (decide (Bot.bot_id b = bot_id)) (decide (Bot.user_id b = user_id)).

(** [ORDER BY created_at DESC] *)
Definition created_at_desc (a b : Bot.row) : Prop :=
  Bot.created_at b ≤ Bot.created_at a.

#[global] Instance created_at_desc_dec a b : Decision (created_at_desc a b) :=
  decide (Bot.created_at b ≤ Bot.created_at a).

(** [SELECT * FROM bots WHERE user_id = %s ORDER BY created_at DESC] *)
Definition select_bots_of_user (user_id : string) (d : db) : list Bot.row :=
  merge_sort created_at_desc
    (filter (fun b => Bot.user_id b = user_id) (bots d)).

(** [SELECT * FROM bots WHERE bot_id = %s AND user_id = %s] *)
Definition select_bot (bot_id user_id : string) (d : db) : list Bot.row :=
  filter (bot_scope bot_id user_id) (bots d).

(** Modelled from the spec: the [bots] table's declaration is not in the
    source.  A row inserted without them gets [created_at] and
    [updated_at] the time of the statement.

    [INSERT INTO bots (bot_id, user_id, name, strategy, trading_pair,
     exchange, initial_investment, current_value, is_virtual, settings,
     status) VALUES (.., 'stopped') RETURNING *] *)
Definition insert_bot (now : timestamp) (bot_id user_id : string)
    (name strategy trading_pair exchange : string)
    (initial_investment current_value : float) (is_virtual : bool)
    (settings : gmap string json) (d : db) : list Bot.row * db :=
  let row := {| Bot.bot_id := bot_id; Bot.user_id := user_id;
                Bot.name := name; Bot.strategy := strategy;
                Bot.trading_pair := trading_pair; Bot.exchange := exchange;
                Bot.initial_investment := initial_investment;
                Bot.current_value := current_value;
                Bot.is_virtual := is_virtual; Bot.settings := settings;
                Bot.status := "stopped";
                Bot.created_at := now; Bot.updated_at := now |} in
  ([row], {| users := users d; sessions := sessions d;
             bots := bots d ++ [row] |}).

(** [UPDATE bots SET <updates> WHERE bot_id = %s AND user_id = %s
     RETURNING *] *)
Definition update_bot_row (now : timestamp) (updates : list assignment)
    (bot_id user_id : string) (d : db) : list Bot.row * db :=
  let '(rows, t) :=
    update_where (bot_scope bot_id user_id)
                 (fun b => foldl (assign now) b updates) (bots d) in
  (rows, {| users := users d; sessions := sessions d; bots := t |}).

(** [DELETE FROM bots WHERE bot_id = %s AND user_id = %s RETURNING bot_id] *)
Definition delete_bot_row (bot_id user_id : string) (d : db)
  : list string * db :=
  let '(rows, t) := delete_where (bot_scope bot_id user_id) (bots d) in
  (Bot.bot_id <$> rows, {| users := users d; sessions := sessions d; bots := t |}).

(** ** Bot handlers *)

(** [GET /api/bots] *)
Definition get_bots (now : timestamp) (request : Request)
  : St db (list Bot.row) :=
  user ← get_current_user now request;
  with_connection (query (select_bots_of_user (User.user_id user))).

(** [POST /api/bots] *)
Definition create_bot (now : timestamp) (rng : uuid) (request : Request)
    (bot_data : BotCreate.t) : St db Bot.row :=
  user ← get_current_user now request;
  with_connection (
    let bot_id := "bot_" +:+ String.substring 0 12 (hex rng) in
    rows ← execute_returning
             (insert_bot now bot_id (User.user_id user)
                (BotCreate.name bot_data) (BotCreate.strategy bot_data)
                (BotCreate.trading_pair bot_data) (BotCreate.exchange bot_data)
                (BotCreate.initial_investment bot_data)
                (BotCreate.initial_investment bot_data)
                (BotCreate.is_virtual bot_data) (BotCreate.settings bot_data));
    let bot := fetchone rows in
    _ ← commit;
    match bot with
    | Some bot => ret bot
    | None => raise 500 "Internal Server Error"
    end).

(** [GET /api/bots/{bot_id}] *)
Definition get_bot (now : timestamp) (request : Request) (bot_id : string)
  : St db Bot.row :=
  user ← get_current_user now request;
  with_connection (
    bot ← query (fun d => fetchone (select_bot bot_id (User.user_id user) d));
    match bot with
    | None => raise 404 "Bot not found"
    | Some bot => ret bot
    end).

(** The [updates] list [update_bot] builds from the fields that are set. *)
Definition build_updates (bot_data : BotUpdate.t) : list assignment :=
  (if opt_str_truthy (BotUpdate.name bot_data)
   then [SetName (default "" (BotUpdate.name bot_data))] else []) ++
  (if opt_str_truthy (BotUpdate.status bot_data)
   then [SetStatus (default "" (BotUpdate.status bot_data))] else []) ++
  (if opt_dict_truthy (BotUpdate.settings bot_data)
   then [SetSettings (default ∅ (BotUpdate.settings bot_data))] else []) ++
  [SetUpdatedAtNow].

(** [PUT /api/bots/{bot_id}] *)
Definition update_bot (now : timestamp) (request : Request) (bot_id : string)
    (bot_data : BotUpdate.t) : St db Bot.row :=
  user ← get_current_user now request;
  with_connection (
    let updates := build_updates bot_data in
    rows ← execute_returning
             (update_bot_row now updates bot_id (User.user_id user));
    let bot := fetchone rows in
    _ ← commit;
    match bot with
    | None => raise 404 "Bot not found"
    | Some bot => ret bot
    end).

(** [DELETE /api/bots/{bot_id}] *)
Definition delete_bot (now : timestamp) (request : Request) (bot_id : string)
  : St db Message :=
  user ← get_current_user now request;
  with_connection (
    rows ← execute_returning (delete_bot_row bot_id (User.user_id user));
    let deleted := fetchone rows in
    _ ← commit;
    match deleted with
    | None => raise 404 "Bot not found"
    | Some _ => ret {| message := "Bot deleted successfully" |}
    end).

(** [POST /api/bots/{bot_id}/start] *)
Definition start_bot (now : timestamp) (request : Request) (bot_id : string)
  : St db Bot.row :=
  user ← get_current_user now request;
  with_connection (
    rows ← execute_returning
             (update_bot_row now [SetStatus "running"; SetUpdatedAtNow]
                             bot_id (User.user_id user));
    let bot := fetchone rows in
    _ ← commit;
    match bot with
    | None => raise 404 "Bot not found"
    | Some bot => ret bot
    end).

(** [POST /api/bots/{bot_id}/stop] *)
Definition stop_bot (now : timestamp) (request : Request) (bot_id : string)
  : St db Bot.row :=
  user ← get_current_user now request;
  with_connection (
    rows ← execute_returning
             (update_bot_row now [SetStatus "stopped"; SetUpdatedAtNow]
                             bot_id (User.user_id user));
    let bot := fetchone rows in
    _ ← commit;
    match bot with
    | None => raise 404 "Bot not found"
    | Some bot => ret bot
    end).

(** ** The HTTP surface as a transition system *)

(** The endpoints behind [get_current_user], with their own arguments. *)
Inductive endpoint :=
| GetMe
| CompleteOnboarding (body : gmap string json)
| GetBots
| CreateBot (rng : uuid) (bot_data : BotCreate.t)
| GetBot (bot_id : string)
| UpdateBot (bot_id : string) (bot_data : BotUpdate.t)
| DeleteBot (bot_id : string)
| StartBot (bot_id : string)
| StopBot (bot_id : string).

(** The failure a handler ends with, if any, with the value it returns
    erased.  What the framework does around a handler is not part of it:
    see [route_create_bot] for a body that is not validated; a value that
    cannot be written as a response is answered 500 after the handler has
    returned. *)
Definition failure {A} (r : result A) : option HTTPException :=
  match r with Ok _ => None | Raise e => Some e end.

Definition observe {A} (out : result A * db) : option HTTPException * db :=
  (failure out.1, out.2).

Definition call (e : endpoint) (now : timestamp) (request : Request) (d : db)
  : option HTTPException * db :=
  match e with
  | GetMe => observe (get_me now request d)
  | CompleteOnboarding body => observe (complete_onboarding now request body d)
  | GetBots => observe (get_bots now request d)
  | CreateBot rng bot_data => observe (create_bot now rng request bot_data d)
  | GetBot bot_id => observe (get_bot now request bot_id d)
  | UpdateBot bot_id bot_data =>
      observe (update_bot now request bot_id bot_data d)
  | DeleteBot bot_id => observe (delete_bot now request bot_id d)
  | StartBot bot_id => observe (start_bot now request bot_id d)
  | StopBot bot_id => observe (stop_bot now request bot_id d)
  end.

(** [bot_data: BotCreate] and [bot_data: BotUpdate] are parameters the
    framework builds from the request body before it calls the handler.  A
    body it cannot validate is answered 422, and the handler, with its call
    of [get_current_user], is not entered.  [None] stands for such a
    body. *)
Inductive served (A : Type) :=
| Unprocessable
| Handled (out : result A).

Arguments Unprocessable {A}.
Arguments Handled {A} out.

(** [POST /api/bots] as the framework serves it. *)
Definition route_create_bot (now : timestamp) (rng : uuid) (request : Request)
    (body : option BotCreate.t) (d : db) : served Bot.row * db :=
  match body with
  | None => (Unprocessable, d)
  | Some bot_data =>
      let out := create_bot now rng request bot_data d in
      (Handled out.1, out.2)
  end.

(** [PUT /api/bots/{bot_id}] as the framework serves it. *)
Definition route_update_bot (now : timestamp) (request : Request)
    (bot_id : string) (body : option BotUpdate.t) (d : db)
  : served Bot.row * db :=
  match body with
  | None => (Unprocessable, d)
  | Some bot_data =>
      let out := update_bot now request bot_id bot_data d in
      (Handled out.1, out.2)
  end.

(** One request to the service. *)
Inductive operation :=
| CreateSession (now : timestamp) (rng : session_uuids)
                (session_id : option string)
| Logout (request : Request)
| Protected (now : timestamp) (request : Request) (e : endpoint).

Section Run.

Variable emergent_auth : string -> option AuthResponse.

Definition step (d : db) (op : operation) : db :=
  match op with
  | CreateSession now rng session_id =>
      (create_session emergent_auth now rng session_id d).2
  | Logout request => (logout request d).2
  | Protected now request e => (call e now request d).2
  end.

(** The store after a sequence of requests, served one after another. *)
Definition run (ops : list operation) (d : db) : db := foldl step d ops.

End Run.

(** Number of session rows of a user. *)
Definition session_count (user_id : string) (d : db) : nat :=
  length (filter (fun s => Session.user_id s = user_id) (sessions d)).

(** ** Named failures and sample inputs *)

Definition not_authenticated : HTTPException :=
  {| status_code := 401; detail := "Not authenticated" |}.

Definition invalid_session : HTTPException :=
  {| status_code := 401; detail := "Invalid or expired session" |}.

Definition bot_not_found : HTTPException :=
  {| status_code := 404; detail := "Bot not found" |}.

(** The answer to an exception that is no [HTTPException]. *)
Definition internal_server_error : HTTPException :=
  {| status_code := 500; detail := "Internal Server Error" |}.

(** A request that carries neither the cookie nor the header. *)
Definition anonymous_request : Request :=
  {| cookies := ∅; headers := ∅ |}.

(** A request whose cookie is sent empty next to a bearer header. *)
Definition empty_cookie_request : Request :=
  {| cookies := {[ "session_token" := "" ]};
     headers := {[ "Authorization" := "Bearer abc" ]} |}.

(** An exchange that rejects every identifier. *)
Definition rejecting_exchange (_ : string) : option AuthResponse :=
  Some {| auth_status_code := 403; auth_json := test_auth_data |}.

(** An exchange that never answers. *)
Definition unreachable_exchange (_ : string) : option AuthResponse := None.

Definition sample_uuids : session_uuids :=
  {| uuid_user := {| hex := "0123456789abcdef0123456789abcdef" |};
     uuid_token := {| hex := "aaaa456789abcdef0123456789abcdef" |};
     uuid_session := {| hex := "bbbb456789abcdef0123456789abcdef" |} |}.

Definition other_uuids : session_uuids :=
  {| uuid_user := {| hex := "1123456789abcdef0123456789abcdef" |};
     uuid_token := {| hex := "cccc456789abcdef0123456789abcdef" |};
     uuid_session := {| hex := "dddd456789abcdef0123456789abcdef" |} |}.

(** The store after the test identity has signed in at time 100. *)
Definition signed_in_db : db :=
  Eval vm_compute in
    (create_session rejecting_exchange 100 sample_uuids
                    (Some "test_session_id") empty_db).2.

(** The request the browser sends after that sign-in. *)
Definition signed_in_request : Request :=
  {| cookies := {[ "session_token" := "sess_aaaa456789abcdef0123456789abcdef" ]};
     headers := ∅ |}.

(** An exchange that accepts every identifier and derives a profile from it. *)
Definition accepting_exchange (session_id : string) : option AuthResponse :=
  Some {| auth_status_code := 200;
          auth_json := {| auth_email := session_id +:+ "@example.com";
                          auth_name := session_id;
                          auth_picture := None |} |}.

Definition sample_bot_create : BotCreate.t :=
  BotCreate.init "Bot1" "grid" "BTC/USDT" "binance" None None None.

(** The signed-in test user has created one bot at time 300. *)
Definition one_bot_db : db :=
  Eval vm_compute in
    (create_bot 300 {| hex := "eeee456789abcdef0123456789abcdef" |}
                signed_in_request sample_bot_create signed_in_db).2.

Definition sample_bot : Bot.row :=
  {| Bot.bot_id := "bot_eeee456789ab"; Bot.user_id := "user_0123456789ab";
     Bot.name := "Bot1"; Bot.strategy := "grid";
     Bot.trading_pair := "BTC/USDT"; Bot.exchange := "binance";
     Bot.initial_investment := 1000%float; Bot.current_value := 1000%float;
     Bot.is_virtual := true; Bot.settings := ∅; Bot.status := "stopped";
     Bot.created_at := 300; Bot.updated_at := 300 |}.

(** A second user, "bob", has signed in through the exchange at time 400. *)
Definition two_user_db : db :=
  Eval vm_compute in
    (create_session accepting_exchange 400 other_uuids (Some "bob")
                    one_bot_db).2.

Definition bob_request : Request :=
  {| cookies := {[ "session_token" := "sess_cccc456789abcdef0123456789abcdef" ]};
     headers := ∅ |}.

Definition bob : User.row :=
  {| User.user_id := "user_1123456789ab"; User.email := "bob@example.com";
     User.name := "bob"; User.picture := None;
     User.onboarding_completed := false; User.settings := ∅ |}.

Definition test_user : User.row :=
  {| User.user_id := "user_0123456789ab"; User.email := "test@tensorx.com";
     User.name := "Test User";
     User.picture :=
       Some "https://ui-avatars.com/api/?name=Test+User&background=06b6d4&color=fff";
     User.onboarding_completed := false; User.settings := ∅ |}.

(** The bot a single-bot endpoint addresses. *)
Definition endpoint_bot_id (e : endpoint) : option string :=
  match e with
  | GetBot bot_id | UpdateBot bot_id _ | DeleteBot bot_id
  | StartBot bot_id | StopBot bot_id => Some bot_id
  | _ => None
  end.



(** The signed-in test user with a setting stored before onboarding. *)
Definition themed_user : User.row :=
  {| User.user_id := "user_0123456789ab"; User.email := "test@tensorx.com";
     User.name := "Test User"; User.picture := None;
     User.onboarding_completed := false;
     User.settings := {[ "theme" := JString "dark" ]} |}.

Definition themed_db : db :=
  {| users := [themed_user]; sessions := sessions signed_in_db; bots := [] |}.

Definition first_onboarding : gmap string json :=
  {[ "data" := JObject {[ "goal" := JString "learn" ]} ]}.

Definition second_onboarding : gmap string json :=
  {[ "data" := JObject {[ "goal" := JString "trade" ]} ]}.

(** A body whose payload is the float [json.loads] reads from [1e400]. *)
Definition overflowing_onboarding : gmap string json :=
  {[ "data" := JFloat infinity ]}.

(** The object [complete_onboarding] sends to the store for a body. *)
Definition onboarding_payload (body : gmap string json) : gmap string json :=
  {[ "onboarding" := default (JObject ∅) (body !! "data") ]}.

Definition onboarding_done : OnboardingDone :=
  {| onboarding_message := "Onboarding completed"; onboarding_flag := true |}.

(** The identifiers [create_session] derives from its random draws. *)
Definition new_user_id (rng : session_uuids) : string :=
  "user_" +:+ String.substring 0 12 (hex (uuid_user rng)).

Definition new_session_token (rng : session_uuids) : string :=
  "sess_" +:+ hex (uuid_token rng).

(** The answer of [create_session] for a user row and a token. *)
Definition session_created (user : User.row) (session_token : string)
  : SessionCreated :=
  {| created_user := user_response user;
     created_session_token := session_token;
     created_cookie := session_cookie session_token |}.

(** Single-session-per-user policy. *)
Definition at_most_one_session (d : db) : Prop :=
  ∀ user_id, (session_count user_id d ≤ 1)%nat.

(** The test identity signs in a second time, at time 150. *)
Definition signed_in_twice_db : db :=
  Eval vm_compute in
    (create_session rejecting_exchange 150 other_uuids
                    (Some "test_session_id") signed_in_db).2.

(** The answer of [logout]. *)
Definition logged_out : LoggedOut :=
  {| logout_message := "Logged out successfully";
     logout_cookie := {| deleted_key := "session_token";
                         deleted_path := "/" |} |}.

(** The row [create_session] inserts for a profile it has not seen. *)
Definition new_user_row (rng : session_uuids) (auth_data : AuthData)
  : User.row :=
  {| User.user_id := new_user_id rng;
     User.email := auth_email auth_data;
     User.name := auth_name auth_data;
     User.picture := auth_picture auth_data;
     User.onboarding_completed := false;
     User.settings := ∅ |}.

(** The [users] table after [UPDATE users SET name, picture WHERE email]. *)
Definition refresh_profile (auth_data : AuthData) (t : list User.row)
  : list User.row :=
  (fun u => if decide (User.email u = auth_email auth_data)
            then set_name_picture (auth_name auth_data)
                                  (auth_picture auth_data) u
            else u) <$> t.

(** The store [create_session] leaves for the user row [user], once the
    [users] table is [t]. *)
Definition issue_session (now : timestamp) (rng : session_uuids)
    (user : User.row) (t : list User.row) (d : db) : db :=
  insert_session (uuid_str (uuid_session rng)) (User.user_id user)
    (new_session_token rng) (now + timedelta_days 7)
    (delete_sessions_of_user (User.user_id user)
       {| users := t; sessions := sessions d; bots := bots d |}).

Definition session_id_required : HTTPException :=
  {| status_code := 400; detail := "session_id required" |}.

Definition invalid_session_id : HTTPException :=
  {| status_code := 401; detail := "Invalid session_id" |}.

(** The identity of a user row: what no handler rewrites. *)
Definition user_identity (u : User.row) : string * string :=
  (User.user_id u, User.email u).

(** The identifier [create_bot] derives from its random draw. *)
Definition new_bot_id (rng : uuid) : string :=
  "bot_" +:+ String.substring 0 12 (hex rng).

(** The row [create_bot] inserts. *)
Definition new_bot_row (now : timestamp) (rng : uuid) (user : User.row)
    (bot_data : BotCreate.t) : Bot.row :=
  {| Bot.bot_id := new_bot_id rng; Bot.user_id := User.user_id user;
     Bot.name := BotCreate.name bot_data;
     Bot.strategy := BotCreate.strategy bot_data;
     Bot.trading_pair := BotCreate.trading_pair bot_data;
     Bot.exchange := BotCreate.exchange bot_data;
     Bot.initial_investment := BotCreate.initial_investment bot_data;
     Bot.current_value := BotCreate.initial_investment bot_data;
     Bot.is_virtual := BotCreate.is_virtual bot_data;
     Bot.settings := BotCreate.settings bot_data;
     Bot.status := "stopped";
     Bot.created_at := now; Bot.updated_at := now |}.

(** The columns of a bot no statement assigns after the insert. *)
Definition bot_fixed (b : Bot.row) :=
  (Bot.bot_id b, Bot.user_id b, Bot.strategy b, Bot.trading_pair b,
   Bot.exchange b, Bot.initial_investment b, Bot.current_value b,
   Bot.is_virtual b, Bot.created_at b).

(** The endpoints that only read. *)
Definition read_only (e : endpoint) : bool :=
  match e with GetMe | GetBots | GetBot _ => true | _ => false end.

Definition is_create_bot (e : endpoint) : bool :=
  match e with CreateBot _ _ => true | _ => false end.

Definition bot_deleted : Message := {| message := "Bot deleted successfully" |}.

(** The partial that sets nothing but [status]. *)
Definition status_only (status : string) : BotUpdate.t :=
  {| BotUpdate.name := None; BotUpdate.status := Some status;
     BotUpdate.settings := None |}.

(** ** Mock market data *)

(** [l[:stop]] for an integer [stop]: a negative [stop] counts from the
    end of the list. *)
Definition py_slice_to {A} (stop : Z) (l : list A) : list A :=
  if stop <? 0 then take (Z.to_nat (Z.of_nat (length l) + stop)) l
  else take (Z.to_nat stop) l.

Record CryptoPrice := {
  price_id : string;
  price_symbol : string;
  price_name : string;
  current_price : float;
  price_change_24h : float;
  percent_change_24h : float;
  market_cap : Z;
  volume_24h : Z
}.

(** The floating-point literals denote the nearest binary64 values, as in
    Python. *)
#[warnings="-inexact-float"]
Definition mock_data : list CryptoPrice :=
  [ {| price_id := "bitcoin"; price_symbol := "BTC"; price_name := "Bitcoin";
       current_price := 98500.00; price_change_24h := 1250.00;
       percent_change_24h := 1.28; market_cap := 1950000000000;
       volume_24h := 45000000000 |};
    {| price_id := "ethereum"; price_symbol := "ETH"; price_name := "Ethereum";
       current_price := 3450.00; price_change_24h := 85.00;
       percent_change_24h := 2.52; market_cap := 415000000000;
       volume_24h := 18000000000 |};
    {| price_id := "solana"; price_symbol := "SOL"; price_name := "Solana";
       current_price := 195.00; price_change_24h := 12.50;
       percent_change_24h := 6.85; market_cap := 92000000000;
       volume_24h := 5500000000 |};
    {| price_id := "binancecoin"; price_symbol := "BNB"; price_name := "BNB";
       current_price := 715.00; price_change_24h := -8.50;
       percent_change_24h := -1.17; market_cap := 105000000000;
       volume_24h := 2200000000 |};
    {| price_id := "xrp"; price_symbol := "XRP"; price_name := "XRP";
       current_price := 2.35; price_change_24h := 0.18;
       percent_change_24h := 8.29; market_cap := 135000000000;
       volume_24h := 12000000000 |};
    {| price_id := "cardano"; price_symbol := "ADA"; price_name := "Cardano";
       current_price := 1.05; price_change_24h := 0.08;
       percent_change_24h := 8.25; market_cap := 37000000000;
       volume_24h := 1800000000 |};
    {| price_id := "dogecoin"; price_symbol := "DOGE"; price_name := "Dogecoin";
       current_price := 0.42; price_change_24h := 0.03;
       percent_change_24h := 7.69; market_cap := 62000000000;
       volume_24h := 4500000000 |};
    {| price_id := "avalanche"; price_symbol := "AVAX";
       price_name := "Avalanche";
       current_price := 48.50; price_change_24h := 3.20;
       percent_change_24h := 7.06; market_cap := 20000000000;
       volume_24h := 850000000 |};
    {| price_id := "polkadot"; price_symbol := "DOT"; price_name := "Polkadot";
       current_price := 9.25; price_change_24h := 0.45;
       percent_change_24h := 5.11; market_cap := 14000000000;
       volume_24h := 550000000 |};
    {| price_id := "chainlink"; price_symbol := "LINK";
       price_name := "Chainlink";
       current_price := 24.80; price_change_24h := 1.85;
       percent_change_24h := 8.06; market_cap := 15500000000;
       volume_24h := 1200000000 |} ]%float.

Record PricesResponse := {
  prices_data : list CryptoPrice;
  prices_timestamp : string
}.

Section Clock.

(** [datetime.isoformat()], the text of a point in time. *)
Variable isoformat : timestamp -> string.

(** [GET /api/crypto/prices]; [limit] is the query parameter, 10 when the
    request has none. *)
Definition get_crypto_prices (limit : option Z) (now : timestamp)
  : PricesResponse :=
  let limit := default 10 limit in
  {| prices_data := py_slice_to limit mock_data;
     prices_timestamp := isoformat now |}.

End Clock.

(** Every session and every bot belongs to a user of the store. *)
Definition owners_exist (d : db) : Prop :=
  (∀ s, s ∈ sessions d → Session.user_id s ∈ User.user_id <$> users d) ∧
  (∀ b, b ∈ bots d → Bot.user_id b ∈ User.user_id <$> users d).

(** * Properties *)

Ltac st_unfold :=
  unfold mbind, St_bind, bind, with_connection, query, execute,
    execute_returning, commit, gets, modify, ret, raise.

Ltac st_simpl := st_unfold; simpl.

(** ** Python helpers *)

Lemma str_truthy_true s : str_truthy s = true ↔ s ≠ "".
Proof. destruct s; simpl; split; congruence. Qed.

Lemma str_truthy_false s : str_truthy s = false ↔ s = "".
Proof. destruct s; simpl; split; congruence. Qed.

Lemma dict_truthy_empty : dict_truthy ∅ = false.
Proof. unfold dict_truthy. by rewrite bool_decide_eq_true_2. Qed.

Lemma split_fields_no_sep sep s :
  (∀ c, c ∈ list_ascii_of_string s → c ≠ sep) →
  split_fields sep s = (s, []).
Proof.
  induction s as [|c s IH]; simpl; intros Hs; [done|].
  rewrite IH by (intros c' Hc'; apply Hs; by right).
  destruct (Ascii.eqb_spec c sep) as [->|_]; [|done].
  exfalso. apply (Hs sep); [by left|done].
Qed.

(** [("Bearer " + rest).split(" ")[1]] is the first field of [rest]. *)
Lemma split_bearer rest :
  str_split " " ("Bearer " +:+ rest) !! 1%nat
  = Some (split_fields " " rest).1.
Proof.
  unfold str_split. cbv [String.append]. simpl.
  by destruct (split_fields " " rest).
Qed.

Lemma startswith_app p s : startswith p (p +:+ s) = true.
Proof.
  unfold startswith. induction p as [|a p IH]; simpl; [by destruct s|].
  by destruct (ascii_dec a a).
Qed.

Lemma startswith_inv p s : startswith p s = true → ∃ rest, s = p +:+ rest.
Proof.
  unfold startswith. revert s.
  induction p as [|a p IH]; intros [|b s]; simpl; try done.
  - intros _. by exists "".
  - intros _. by exists (String b s).
  - destruct (ascii_dec a b) as [->|]; [|done].
    intros [rest ->]%IH. by exists rest.
Qed.

(** ** Session resolution *)

Lemma get_current_user_no_token now request d :
  opt_str_truthy (get_session_token request) = false →
  get_current_user now request d = (Raise not_authenticated, d).
Proof.
  unfold get_current_user.
  destruct (get_session_token request) as [t|]; simpl; [|done].
  by intros ->.
Qed.

Lemma get_current_user_token now request d t :
  get_session_token request = Some t → t ≠ "" →
  get_current_user now request d =
    match fetchone (select_user_by_session t now d) with
    | Some user => (Ok user, d)
    | None => (Raise invalid_session, d)
    end.
Proof.
  intros Ht Hne%str_truthy_true. unfold get_current_user.
  rewrite Ht, Hne. st_simpl.
  by destruct (fetchone (select_user_by_session t now d)).
Qed.

(** Session resolution never writes. *)
Lemma get_current_user_readonly now request d :
  (get_current_user now request d).2 = d.
Proof.
  destruct (get_session_token request) as [t|] eqn:Ht.
  - destruct (str_truthy t) eqn:Hs.
    + rewrite (get_current_user_token _ _ _ t Ht) by (by apply str_truthy_true).
      by destruct (fetchone _).
    + rewrite get_current_user_no_token; [done|]. by rewrite Ht.
  - rewrite get_current_user_no_token; [done|]. by rewrite Ht.
Qed.

Lemma elem_of_select_user_by_session token now d u :
  u ∈ select_user_by_session token now d ↔
  u ∈ users d ∧
  ∃ s, s ∈ sessions d ∧ User.user_id u = Session.user_id s ∧
       Session.session_token s = token ∧ now < Session.expires_at s.
Proof.
  unfold select_user_by_session. rewrite list_elem_of_bind. split.
  - intros (u' & Hin & Hu'). apply list_elem_of_bind in Hin as (s & Hin & Hs).
    destruct (bool_decide _ && _ && _) eqn:Hc; [|by apply elem_of_nil in Hin].
    apply list_elem_of_singleton in Hin as ->.
    apply andb_true_iff in Hc as [[H1 H2]%andb_true_iff H3].
    apply bool_decide_eq_true in H1, H2, H3. eauto 10.
  - intros (Hu & s & Hs & H1 & H2 & H3). exists u. split; [|done].
    apply list_elem_of_bind. exists s. split; [|done].
    rewrite !bool_decide_eq_true_2 by done. simpl. by left.
Qed.

Lemma fetchone_None {A} (l : list A) : fetchone l = None ↔ l = [].
Proof. by destruct l. Qed.

(** Every protected handler raises what session resolution raised, and
    leaves the store as it was. *)
Lemma call_unauthenticated e now request d exn :
  get_current_user now request d = (Raise exn, d) →
  call e now request d = (Some exn, d).
Proof.
  intros H.
  destruct e; unfold call, observe, get_me, complete_onboarding, get_bots,
    create_bot, get_bot, update_bot, delete_bot, start_bot, stop_bot;
    unfold mbind, St_bind, bind; by rewrite H.
Qed.

Lemma get_session_token_cookie request t :
  cookies request !! "session_token" = Some t → t ≠ "" →
  get_session_token request = Some t.
Proof.
  intros Hc Ht%str_truthy_true. unfold get_session_token.
  rewrite Hc. simpl. by rewrite Ht.
Qed.

Lemma get_session_token_header request :
  opt_str_truthy (cookies request !! "session_token") = false →
  get_session_token request =
    match headers request !! "Authorization" with
    | Some h => if startswith "Bearer " h
                then str_split " " h !! 1%nat else None
    | None => None
    end.
Proof.
  intros Hc. unfold get_session_token. rewrite Hc.
  destruct (headers request !! "Authorization") as [h|]; [|done].
  destruct h; [done|]. done.
Qed.

(** A bearer header whose token has no space in it yields that token. *)
Lemma get_session_token_bearer request token :
  opt_str_truthy (cookies request !! "session_token") = false →
  headers request !! "Authorization" = Some ("Bearer " +:+ token) →
  (∀ c, c ∈ list_ascii_of_string token → c ≠ " "%char) →
  get_session_token request = Some token.
Proof.
  intros Hc Hh Hspace. rewrite (get_session_token_header _ Hc), Hh.
  by rewrite startswith_app, split_bearer, split_fields_no_sep.
Qed.

Lemma no_live_session_no_user token now d :
  (∀ s, s ∈ sessions d → Session.session_token s = token →
        ¬ now < Session.expires_at s) →
  fetchone (select_user_by_session token now d) = None.
Proof.
  intros Hno. apply fetchone_None, elem_of_nil_inv. intros u Hu.
  apply elem_of_select_user_by_session in Hu as (_ & s & Hs & _ & Ht & Hlt).
  by apply (Hno s).
Qed.

(** C8, the claim as stated fails twice.  With the cookie present but
    empty, the token is taken from the Authorization header, so the header
    is not consulted only when the cookie is absent.  And a request to
    create a bot that carries no token and a body the framework cannot
    validate is answered 422, not 401: the handler, and with it the
    session gate, is not entered. *)
Lemma protected_request_claim_fails :
  ¬ (∀ request t,
       get_session_token request = Some t →
       cookies request !! "session_token" ≠ Some t →
       cookies request !! "session_token" = None) ∧
  get_session_token anonymous_request = None ∧
  (∀ now rng d,
     route_create_bot now rng anonymous_request None d = (Unprocessable, d)) ∧
  ¬ (∀ now rng body d,
       route_create_bot now rng anonymous_request body d
       = (Handled (Raise not_authenticated), d)).
Proof.
  split_and!.
  - intros H. specialize (H empty_cookie_request "abc").
    discriminate H; [reflexivity|discriminate].
  - reflexivity.
  - reflexivity.
  - intros H.
    specialize (H 0 {| hex := "" |} None empty_db). discriminate H.
Qed.

(** C8, for a request that reaches its handler: the token is the
    [session_token] cookie when that cookie is present and not empty; when
    the cookie is absent or empty it is the field that follows ["Bearer "]
    in the Authorization header, and there is none without that prefix.
    Every protected handler fails with 401 and an untouched store when no
    token comes out, and also when no session row carries the token with
    [expires_at] in the future.  A request to create or update a bot whose
    body the framework cannot validate does not reach its handler: it is
    answered 422 whatever its token, with the store untouched; with a
    validated body it is answered by the handler, with its 401 check. *)
Theorem session_gate now request d e :
  (∀ t, cookies request !! "session_token" = Some t → t ≠ "" →
        get_session_token request = Some t) ∧
  (opt_str_truthy (cookies request !! "session_token") = false →
   (∀ rest, headers request !! "Authorization" = Some ("Bearer " +:+ rest) →
            get_session_token request = Some (split_fields " " rest).1) ∧
   ((∀ h, headers request !! "Authorization" = Some h →
          startswith "Bearer " h = false) →
    get_session_token request = None)) ∧
  (opt_str_truthy (get_session_token request) = false →
   call e now request d = (Some not_authenticated, d)) ∧
  (∀ t, get_session_token request = Some t → t ≠ "" →
        (∀ s, s ∈ sessions d → Session.session_token s = t →
              ¬ now < Session.expires_at s) →
        call e now request d = (Some invalid_session, d)) ∧
  (∀ rng, route_create_bot now rng request None d = (Unprocessable, d)) ∧
  (∀ bot_id, route_update_bot now request bot_id None d = (Unprocessable, d)) ∧
  (∀ rng bot_data,
     opt_str_truthy (get_session_token request) = false →
     route_create_bot now rng request (Some bot_data) d
     = (Handled (Raise not_authenticated), d)) ∧
  (∀ bot_id bot_data,
     opt_str_truthy (get_session_token request) = false →
     route_update_bot now request bot_id (Some bot_data) d
     = (Handled (Raise not_authenticated), d)).
Proof.
  split_and!.
  - apply get_session_token_cookie.
  - intros Hc. rewrite (get_session_token_header _ Hc). split.
    + intros rest ->. by rewrite startswith_app, split_bearer.
    + intros Hno. destruct (headers request !! "Authorization") as [h|]; [|done].
      by rewrite (Hno h).
  - intros Hno. apply call_unauthenticated.
    by apply get_current_user_no_token.
  - intros t Ht Hne Hno. apply call_unauthenticated.
    rewrite (get_current_user_token _ _ _ t Ht Hne).
    by rewrite no_live_session_no_user.
  - done.
  - done.
  - intros rng bot_data Hno.
    pose proof (call_unauthenticated (CreateBot rng bot_data) now request d
                  not_authenticated (get_current_user_no_token _ _ _ Hno))
      as Hcall.
    unfold call, observe in Hcall. unfold route_create_bot.
    destruct (create_bot now rng request bot_data d) as [[bot|exn] d'];
      simpl in *; congruence.
  - intros bot_id bot_data Hno.
    pose proof (call_unauthenticated (UpdateBot bot_id bot_data) now request d
                  not_authenticated (get_current_user_no_token _ _ _ Hno))
      as Hcall.
    unfold call, observe in Hcall. unfold route_update_bot.
    destruct (update_bot now request bot_id bot_data d) as [[bot|exn] d'];
      simpl in *; congruence.
Qed.

Lemma session_gate_witness :
  get_session_token signed_in_request
    = Some "sess_aaaa456789abcdef0123456789abcdef" ∧
  call (GetBot "bot_0") 700000000000 signed_in_request signed_in_db
    = (Some invalid_session, signed_in_db).
Proof.
  pose proof (session_gate 700000000000 signed_in_request signed_in_db
                           (GetBot "bot_0")) as (Hcookie & _ & _ & Hexp & _).
  split.
  - apply Hcookie; [reflexivity|discriminate].
  - apply (Hexp "sess_aaaa456789abcdef0123456789abcdef");
      [reflexivity|discriminate|].
    intros s Hs _. apply list_elem_of_singleton in Hs as ->. simpl. lia.
Defined.

(** ** Tables *)

Lemma filter_none {A} (P : A → Prop) `{!∀ r, Decision (P r)} (t : list A) :
  (∀ x, x ∈ t → ¬ P x) → filter P t = [].
Proof.
  intros Hall. apply elem_of_nil_inv. intros x [HP Hx]%list_elem_of_filter.
  by apply (Hall x).
Qed.

Lemma filter_all {A} (P : A → Prop) `{!∀ r, Decision (P r)} (t : list A) :
  (∀ x, x ∈ t → P x) → filter P t = t.
Proof.
  induction t as [|r t IH]; intros Hall; [done|].
  rewrite filter_cons_True by (apply Hall; by left).
  f_equal. apply IH. intros x Hx. apply Hall. by right.
Qed.

Lemma filter_ext_in {A} (P Q : A → Prop)
    `{!∀ r, Decision (P r), !∀ r, Decision (Q r)} (t : list A) :
  (∀ x, x ∈ t → P x ↔ Q x) → filter P t = filter Q t.
Proof.
  induction t as [|r t IH]; intros Hiff; [done|].
  rewrite !filter_cons, IH by (intros x Hx; apply Hiff; by right).
  destruct (decide (P r)) as [HP|HP], (decide (Q r)) as [HQ|HQ]; try done.
  - destruct HQ. apply Hiff; [by left|done].
  - destruct HP. apply Hiff; [by left|done].
Qed.

Section Tables.
Context {A : Type} (P : A → Prop) `{!∀ r, Decision (P r)}.
Implicit Types (t : list A) (f : A → A).

Lemma update_where_none f t :
  filter P t = [] → update_where P f t = ([], t).
Proof.
  intros Hnone. unfold update_where. rewrite Hnone. f_equal.
  rewrite <- (list_fmap_id t) at 2. apply list_fmap_ext.
  intros i x Hx. destruct (decide (P x)) as [HP|]; [|done].
  exfalso. eapply filter_nil_not_elem_of; [done..|].
  by eapply list_elem_of_lookup_2.
Qed.

Lemma delete_where_none t :
  filter P t = [] → delete_where P t = ([], t).
Proof.
  intros Hnone. unfold delete_where. rewrite Hnone. f_equal.
  apply filter_all. intros x Hx HP.
  by eapply filter_nil_not_elem_of.
Qed.

(** Rewriting rows keeps what the rewrite keeps. *)
Lemma update_where_fmap {B} (g : A → B) f t :
  (∀ x, g (f x) = g x) → g <$> (update_where P f t).2 = g <$> t.
Proof.
  intros Hg. unfold update_where. simpl. rewrite <- list_fmap_compose.
  apply list_fmap_ext. intros i x _. simpl. by destruct (decide (P x)).
Qed.



End Tables.

Section Keys.
Context {A K : Type} (key : A → K).
Context (P : A → Prop) `{!∀ r, Decision (P r)}.
Implicit Types (t : list A).

Lemma key_determines_row t x y :
  NoDup (key <$> t) → x ∈ t → y ∈ t → key x = key y → x = y.
Proof.
  induction t as [|r t IH]; simpl; [by intros _ ?%elem_of_nil|].
  intros [Hr Hnd]%NoDup_cons [->|Hx]%elem_of_cons [->|Hy]%elem_of_cons Hk;
    [done| | |by apply IH].
  - exfalso. apply Hr. rewrite Hk. by apply list_elem_of_fmap_2.
  - exfalso. apply Hr. rewrite <- Hk. by apply list_elem_of_fmap_2.
Qed.

(** A condition that fixes the key selects at most the row that has it. *)
Lemma filter_by_key t x :
  NoDup (key <$> t) → x ∈ t → P x → (∀ y, P y → key y = key x) →
  filter P t = [x].
Proof.
  intros Hnd Hx HPx Hkey.
  induction t as [|r t IH]; [by apply elem_of_nil in Hx|].
  simpl in Hnd. apply NoDup_cons in Hnd as [Hr Hnd].
  apply elem_of_cons in Hx as [<-|Hx].
  - rewrite filter_cons_True by done. f_equal.
    apply filter_none. intros y Hy HPy. apply Hr.
    rewrite <- (Hkey y HPy). by apply list_elem_of_fmap_2.
  - rewrite filter_cons_False; [by apply IH|].
    intros HPr. apply Hr. rewrite (Hkey r HPr).
    by apply list_elem_of_fmap_2.
Qed.

End Keys.

(** ** Bots: what each handler does for a resolved user *)

Lemma db_eta d : {| users := users d; sessions := sessions d; bots := bots d |} = d.
Proof. by destruct d. Qed.

Section Authenticated.
Context (now : timestamp) (request : Request) (d : db) (user : User.row).
Hypothesis Hauth : get_current_user now request d = (Ok user, d).

Lemma get_bot_authenticated bot_id :
  get_bot now request bot_id d =
    match fetchone (select_bot bot_id (User.user_id user) d) with
    | Some bot => (Ok bot, d)
    | None => (Raise bot_not_found, d)
    end.
Proof.
  unfold get_bot. st_unfold. rewrite Hauth. simpl.
  by destruct (fetchone _).
Qed.

Lemma update_bot_authenticated bot_id bot_data :
  update_bot now request bot_id bot_data d =
    let out := update_bot_row now (build_updates bot_data) bot_id
                              (User.user_id user) d in
    (match fetchone out.1 with
     | Some bot => Ok bot
     | None => Raise bot_not_found
     end, out.2).
Proof.
  unfold update_bot. st_unfold. rewrite Hauth. simpl.
  by destruct (fetchone _).
Qed.

Lemma start_bot_authenticated bot_id :
  start_bot now request bot_id d =
    let out := update_bot_row now [SetStatus "running"; SetUpdatedAtNow]
                              bot_id (User.user_id user) d in
    (match fetchone out.1 with
     | Some bot => Ok bot
     | None => Raise bot_not_found
     end, out.2).
Proof.
  unfold start_bot. st_unfold. rewrite Hauth. simpl.
  by destruct (fetchone _).
Qed.

Lemma stop_bot_authenticated bot_id :
  stop_bot now request bot_id d =
    let out := update_bot_row now [SetStatus "stopped"; SetUpdatedAtNow]
                              bot_id (User.user_id user) d in
    (match fetchone out.1 with
     | Some bot => Ok bot
     | None => Raise bot_not_found
     end, out.2).
Proof.
  unfold stop_bot. st_unfold. rewrite Hauth. simpl.
  by destruct (fetchone _).
Qed.

Lemma delete_bot_authenticated bot_id :
  delete_bot now request bot_id d =
    let out := delete_bot_row bot_id (User.user_id user) d in
    (match fetchone out.1 with
     | Some _ => Ok {| message := "Bot deleted successfully" |}
     | None => Raise bot_not_found
     end, out.2).
Proof.
  unfold delete_bot. st_unfold. rewrite Hauth. simpl.
  by destruct (fetchone _).
Qed.

Lemma update_bot_row_none updates bot_id :
  select_bot bot_id (User.user_id user) d = [] →
  update_bot_row now updates bot_id (User.user_id user) d = ([], d).
Proof.
  unfold select_bot, update_bot_row. intros Hnone.
  rewrite update_where_none by done. by rewrite db_eta.
Qed.

Lemma delete_bot_row_none bot_id :
  select_bot bot_id (User.user_id user) d = [] →
  delete_bot_row bot_id (User.user_id user) d = ([], d).
Proof.
  unfold select_bot, delete_bot_row. intros Hnone.
  rewrite delete_where_none by done. simpl. by rewrite db_eta.
Qed.

(** No row in scope: all five single-bot endpoints answer 404 and write
    nothing. *)
Lemma call_out_of_scope e bot_id :
  endpoint_bot_id e = Some bot_id →
  select_bot bot_id (User.user_id user) d = [] →
  call e now request d = (Some bot_not_found, d).
Proof.
  intros He Hnone. destruct e; simplify_eq/=; unfold observe.
  - by rewrite get_bot_authenticated, Hnone.
  - by rewrite update_bot_authenticated, update_bot_row_none.
  - by rewrite delete_bot_authenticated, delete_bot_row_none.
  - by rewrite start_bot_authenticated, update_bot_row_none.
  - by rewrite stop_bot_authenticated, update_bot_row_none.
Qed.

End Authenticated.

(** A bot of someone else is out of the caller's scope. *)
Lemma select_bot_of_other d b user_id :
  NoDup (Bot.bot_id <$> bots d) → b ∈ bots d → user_id ≠ Bot.user_id b →
  select_bot (Bot.bot_id b) user_id d = [].
Proof.
  intros Hpk Hb Hne. apply filter_none. intros r Hr [Hid Hu].
  apply Hne. rewrite <- Hu. f_equal. symmetry.
  by apply (key_determines_row Bot.bot_id (bots d)).
Qed.

Lemma select_bot_missing d bot_id user_id :
  (∀ r, r ∈ bots d → Bot.bot_id r ≠ bot_id) →
  select_bot bot_id user_id d = [].
Proof.
  intros Hno. apply filter_none. intros r Hr [Hid _]. by apply (Hno r).
Qed.

(** C3: on a bot owned by someone else, Get, Update, Delete, Start and
    Stop fail with 404 "Bot not found" and leave the store (so the bot) as
    it was; a caller asking for an identifier that no bot carries gets the
    very same failure. *)
Theorem bot_hidden_from_other_users now request d user b e :
  NoDup (Bot.bot_id <$> bots d) →
  b ∈ bots d →
  get_current_user now request d = (Ok user, d) →
  User.user_id user ≠ Bot.user_id b →
  endpoint_bot_id e = Some (Bot.bot_id b) →
  call e now request d = (Some bot_not_found, d) ∧
  ∀ d0 user0,
    get_current_user now request d0 = (Ok user0, d0) →
    (∀ r, r ∈ bots d0 → Bot.bot_id r ≠ Bot.bot_id b) →
    call e now request d0 = (Some bot_not_found, d0).
Proof.
  intros Hpk Hb Hauth Hne He. split.
  - apply (call_out_of_scope _ _ _ user Hauth _ (Bot.bot_id b) He).
    by apply select_bot_of_other.
  - intros d0 user0 Hauth0 Hmissing.
    apply (call_out_of_scope _ _ _ user0 Hauth0 _ (Bot.bot_id b) He).
    by apply select_bot_missing.
Qed.

Lemma bot_hidden_from_other_users_witness :
  call (UpdateBot "bot_eeee456789ab"
          {| BotUpdate.name := Some "mine"; BotUpdate.status := None;
             BotUpdate.settings := None |})
       500 bob_request two_user_db
  = (Some bot_not_found, two_user_db).
Proof.
  refine (proj1 (bot_hidden_from_other_users 500 bob_request two_user_db bob
                   sample_bot _ _ _ _ _ _)).
  - apply NoDup_singleton.
  - by left.
  - reflexivity.
  - discriminate.
  - reflexivity.
Defined.

(** ** Bots: statements on an owned bot *)

Section Owned.
Context (now : timestamp) (d : db) (b : Bot.row).
Hypothesis Hpk : NoDup (Bot.bot_id <$> bots d).
Hypothesis Hb : b ∈ bots d.

Lemma select_bot_owned :
  select_bot (Bot.bot_id b) (Bot.user_id b) d = [b].
Proof.
  apply (filter_by_key Bot.bot_id); [done..| |by intros y [? _]].
  by split.
Qed.

Lemma in_scope_iff_same_id r :
  r ∈ bots d →
  bot_scope (Bot.bot_id b) (Bot.user_id b) r ↔ Bot.bot_id r = Bot.bot_id b.
Proof.
  intros Hr. split; [by intros [? _]|]. intros Hid.
  by rewrite (key_determines_row Bot.bot_id (bots d) r b).
Qed.

(** The store with the owned bot replaced by [b']. *)
Lemma update_bot_row_owned updates :
  let b' := foldl (assign now) b updates in
  update_bot_row now updates (Bot.bot_id b) (Bot.user_id b) d =
    ([b'],
     {| users := users d; sessions := sessions d;
        bots := (fun r => if decide (Bot.bot_id r = Bot.bot_id b)
                          then b' else r) <$> bots d |}).
Proof.
  intros b'. unfold update_bot_row, update_where.
  fold (select_bot (Bot.bot_id b) (Bot.user_id b) d).
  rewrite select_bot_owned. simpl. do 2 f_equal.
  apply list_fmap_ext. intros i r Hr%list_elem_of_lookup_2.
  destruct (decide (bot_scope _ _ r)) as [Hs|Hs],
           (decide (Bot.bot_id r = Bot.bot_id b)) as [Hid|Hid]; try done.
  - by rewrite (key_determines_row Bot.bot_id (bots d) r b).
  - by apply in_scope_iff_same_id in Hs.
  - by apply in_scope_iff_same_id in Hid.
Qed.

Lemma delete_bot_row_owned :
  delete_bot_row (Bot.bot_id b) (Bot.user_id b) d =
    ([Bot.bot_id b],
     {| users := users d; sessions := sessions d;
        bots := filter (fun r => Bot.bot_id r ≠ Bot.bot_id b) (bots d) |}).
Proof.
  unfold delete_bot_row, delete_where.
  fold (select_bot (Bot.bot_id b) (Bot.user_id b) d).
  rewrite select_bot_owned. simpl. do 2 f_equal.
  apply filter_ext_in. intros r Hr.
  by rewrite in_scope_iff_same_id.
Qed.

End Owned.

Lemma build_updates_empty_settings name status :
  build_updates {| BotUpdate.name := name; BotUpdate.status := status;
                   BotUpdate.settings := Some ∅ |}
  = build_updates {| BotUpdate.name := name; BotUpdate.status := status;
                     BotUpdate.settings := None |}.
Proof. unfold build_updates. simpl. by rewrite dict_truthy_empty. Qed.

(** The row an update leaves: each of [name], [status], [settings] is
    replaced when the partial carries a non-empty value for it. *)
Lemma foldl_build_updates now b bot_data :
  foldl (assign now) b (build_updates bot_data) =
    {| Bot.bot_id := Bot.bot_id b; Bot.user_id := Bot.user_id b;
       Bot.name := match BotUpdate.name bot_data with
                   | Some (String c s) => String c s
                   | _ => Bot.name b
                   end;
       Bot.strategy := Bot.strategy b;
       Bot.trading_pair := Bot.trading_pair b;
       Bot.exchange := Bot.exchange b;
       Bot.initial_investment := Bot.initial_investment b;
       Bot.current_value := Bot.current_value b;
       Bot.is_virtual := Bot.is_virtual b;
       Bot.settings := match BotUpdate.settings bot_data with
                       | Some m => if decide (m = ∅) then Bot.settings b else m
                       | None => Bot.settings b
                       end;
       Bot.status := match BotUpdate.status bot_data with
                     | Some (String c s) => String c s
                     | _ => Bot.status b
                     end;
       Bot.created_at := Bot.created_at b;
       Bot.updated_at := now |}.
Proof.
  destruct bot_data as [name status settings]. unfold build_updates. simpl.
  destruct name as [[|? ?]|], status as [[|? ?]|], settings as [m|]; simpl;
    try reflexivity;
    unfold dict_truthy; destruct (decide (m = ∅)) as [Hm|Hm];
    rewrite ?(bool_decide_eq_true_2 _ Hm), ?(bool_decide_eq_false_2 _ Hm);
    reflexivity.
Qed.

(** C4: on an existing bot of the caller, Update replaces [name],
    [status] and [settings] exactly where the partial carries a non-empty
    value, sets [updated_at] to the time of the statement, keeps every
    other column and every other row, and returns the new row; a partial
    whose [settings] is the empty mapping does what the same partial
    without [settings] does. *)
Theorem update_bot_changes_only_provided now request d user b bot_data :
  NoDup (Bot.bot_id <$> bots d) →
  b ∈ bots d →
  get_current_user now request d = (Ok user, d) →
  Bot.user_id b = User.user_id user →
  let b' :=
    {| Bot.bot_id := Bot.bot_id b; Bot.user_id := Bot.user_id b;
       Bot.name := match BotUpdate.name bot_data with
                   | Some (String c s) => String c s
                   | _ => Bot.name b
                   end;
       Bot.strategy := Bot.strategy b;
       Bot.trading_pair := Bot.trading_pair b;
       Bot.exchange := Bot.exchange b;
       Bot.initial_investment := Bot.initial_investment b;
       Bot.current_value := Bot.current_value b;
       Bot.is_virtual := Bot.is_virtual b;
       Bot.settings := match BotUpdate.settings bot_data with
                       | Some m => if decide (m = ∅) then Bot.settings b else m
                       | None => Bot.settings b
                       end;
       Bot.status := match BotUpdate.status bot_data with
                     | Some (String c s) => String c s
                     | _ => Bot.status b
                     end;
       Bot.created_at := Bot.created_at b;
       Bot.updated_at := now |} in
  update_bot now request (Bot.bot_id b) bot_data d =
    (Ok b',
     {| users := users d; sessions := sessions d;
        bots := (fun r => if decide (Bot.bot_id r = Bot.bot_id b)
                          then b' else r) <$> bots d |}) ∧
  (BotUpdate.settings bot_data = Some ∅ →
   update_bot now request (Bot.bot_id b) bot_data d =
   update_bot now request (Bot.bot_id b)
     {| BotUpdate.name := BotUpdate.name bot_data;
        BotUpdate.status := BotUpdate.status bot_data;
        BotUpdate.settings := None |} d).
Proof.
  intros Hpk Hb Hauth Hown b'. split.
  - rewrite (update_bot_authenticated _ _ _ user Hauth), <- Hown.
    rewrite update_bot_row_owned by done. simpl.
    by rewrite foldl_build_updates.
  - intros Hempty.
    rewrite !(update_bot_authenticated _ _ _ user Hauth).
    destruct bot_data as [name status settings]. simpl in *. subst settings.
    by rewrite build_updates_empty_settings.
Qed.

Lemma update_bot_changes_only_provided_witness :
  update_bot 500 signed_in_request "bot_eeee456789ab"
    {| BotUpdate.name := Some "Renamed"; BotUpdate.status := Some "";
       BotUpdate.settings := Some ∅ |} one_bot_db
  = (Ok (set_bot_updated_at 500 (set_bot_name "Renamed" sample_bot)),
     {| users := users one_bot_db; sessions := sessions one_bot_db;
        bots := [set_bot_updated_at 500 (set_bot_name "Renamed" sample_bot)] |}).
Proof.
  refine (proj1 (update_bot_changes_only_provided 500 signed_in_request
                   one_bot_db test_user sample_bot _ _ _ _ _)).
  - apply NoDup_singleton.
  - by left.
  - reflexivity.
  - reflexivity.
Defined.

(** No assignment touches the identifier or the owner. *)
Lemma foldl_assign_scope now updates b :
  Bot.bot_id (foldl (assign now) b updates) = Bot.bot_id b ∧
  Bot.user_id (foldl (assign now) b updates) = Bot.user_id b.
Proof.
  revert b. induction updates as [|a updates IH]; intros b; simpl; [done|].
  destruct (IH (assign now b a)) as [-> ->]. by destruct a.
Qed.

(** Session resolution reads [users] and [sessions] only. *)
Lemma get_current_user_frame now request d d' :
  users d' = users d → sessions d' = sessions d →
  (get_current_user now request d').1 = (get_current_user now request d).1.
Proof.
  intros Hu Hs. unfold get_current_user.
  destruct (get_session_token request) as [t|]; [|done].
  destruct (str_truthy t); [|done]. st_simpl.
  unfold select_user_by_session. rewrite Hu, Hs.
  by destruct (fetchone _).
Qed.

Lemma get_current_user_transfer now request d d' user :
  users d' = users d → sessions d' = sessions d →
  get_current_user now request d = (Ok user, d) →
  get_current_user now request d' = (Ok user, d').
Proof.
  intros Hu Hs Hauth.
  pose proof (get_current_user_frame now request d d' Hu Hs) as H1.
  pose proof (get_current_user_readonly now request d') as H2.
  rewrite Hauth in H1. simpl in H1.
  destruct (get_current_user now request d') as [r d'']. simpl in *.
  by subst.
Qed.


(** The replaced row is the one its identifier selects afterwards. *)
Lemma select_bot_replaced d b b' :
  NoDup (Bot.bot_id <$> bots d) → b ∈ bots d →
  Bot.bot_id b' = Bot.bot_id b →
  let t := (fun r => if decide (Bot.bot_id r = Bot.bot_id b) then b' else r)
             <$> bots d in
  NoDup (Bot.bot_id <$> t) ∧ b' ∈ t ∧
  select_bot (Bot.bot_id b) (Bot.user_id b')
             {| users := users d; sessions := sessions d; bots := t |} = [b'].
Proof.
  intros Hpk Hb Hid t.
  assert (Hkeys : Bot.bot_id <$> t = Bot.bot_id <$> bots d).
  { unfold t. rewrite <- list_fmap_compose. apply list_fmap_ext.
    intros i r _. simpl. by destruct (decide _) as [->|]. }
  assert (Hin : b' ∈ t).
  { unfold t. apply list_elem_of_fmap. exists b. by rewrite decide_True. }
  split_and!; [by rewrite Hkeys|done|].
  rewrite <- Hid. apply (select_bot_owned _ b'); simpl; [by rewrite Hkeys|done].
Qed.

(** The handler checks no status.  On a store whose [status] column
    takes any text, Update with a non-empty [status] string succeeds on an
    owned bot whatever the string is, and the row then stored under the
    bot's identifier carries that string as its status. *)
Lemma update_bot_stores_any_status now request d user b name s settings :
  NoDup (Bot.bot_id <$> bots d) →
  b ∈ bots d →
  get_current_user now request d = (Ok user, d) →
  Bot.user_id b = User.user_id user →
  s ≠ "" →
  ∃ b' d',
    update_bot now request (Bot.bot_id b)
      {| BotUpdate.name := name; BotUpdate.status := Some s;
         BotUpdate.settings := settings |} d = (Ok b', d') ∧
    Bot.status b' = s ∧
    select_bot (Bot.bot_id b) (User.user_id user) d' = [b'].
Proof.
  intros Hpk Hb Hauth Hown Hs.
  rewrite (update_bot_authenticated _ _ _ user Hauth), <- Hown.
  rewrite update_bot_row_owned by done. simpl.
  set (b' := foldl _ _ _). eexists b', _. split; [done|].
  destruct (foldl_assign_scope now
              (build_updates {| BotUpdate.name := name;
                                BotUpdate.status := Some s;
                                BotUpdate.settings := settings |}) b)
    as [Hid Huid].
  split.
  - unfold b'. rewrite foldl_build_updates. simpl. by destruct s.
  - rewrite <- Huid. by apply select_bot_replaced.
Qed.

Lemma update_bot_stores_any_status_witness :
  ∃ b' d',
    update_bot 500 signed_in_request "bot_eeee456789ab"
      {| BotUpdate.name := None; BotUpdate.status := Some "paused";
         BotUpdate.settings := None |} one_bot_db = (Ok b', d') ∧
    Bot.status b' = "paused" ∧
    select_bot "bot_eeee456789ab" "user_0123456789ab" d' = [b'].
Proof.
  refine (update_bot_stores_any_status 500 signed_in_request one_bot_db
            test_user sample_bot None "paused" None _ _ _ _ _).
  - apply NoDup_singleton.
  - by left.
  - reflexivity.
  - reflexivity.
  - discriminate.
Defined.

(** C10: Update with a partial whose three fields are all empty or absent
    succeeds on an owned bot: the row it returns has [updated_at] equal to
    the time of the statement and every other column as the bot had it,
    and that row is stored in the bot's place, the rest of the store being
    as before. *)
Theorem update_bot_empty_partial now request d user b bot_data :
  NoDup (Bot.bot_id <$> bots d) →
  b ∈ bots d →
  get_current_user now request d = (Ok user, d) →
  Bot.user_id b = User.user_id user →
  opt_str_truthy (BotUpdate.name bot_data) = false →
  opt_str_truthy (BotUpdate.status bot_data) = false →
  opt_dict_truthy (BotUpdate.settings bot_data) = false →
  let b' := {| Bot.bot_id := Bot.bot_id b; Bot.user_id := Bot.user_id b;
               Bot.name := Bot.name b; Bot.strategy := Bot.strategy b;
               Bot.trading_pair := Bot.trading_pair b;
               Bot.exchange := Bot.exchange b;
               Bot.initial_investment := Bot.initial_investment b;
               Bot.current_value := Bot.current_value b;
               Bot.is_virtual := Bot.is_virtual b;
               Bot.settings := Bot.settings b;
               Bot.status := Bot.status b;
               Bot.created_at := Bot.created_at b;
               Bot.updated_at := now |} in
  update_bot now request (Bot.bot_id b) bot_data d =
    (Ok b',
     {| users := users d; sessions := sessions d;
        bots := (fun r => if decide (Bot.bot_id r = Bot.bot_id b)
                          then b' else r) <$> bots d |}).
Proof.
  intros Hpk Hb Hauth Hown Hname Hstatus Hsettings b'.
  rewrite (update_bot_authenticated _ _ _ user Hauth), <- Hown.
  rewrite update_bot_row_owned by done.
  unfold build_updates. by rewrite Hname, Hstatus, Hsettings.
Qed.

Lemma update_bot_empty_partial_witness :
  let b' := {| Bot.bot_id := "bot_eeee456789ab";
               Bot.user_id := "user_0123456789ab";
               Bot.name := "Bot1"; Bot.strategy := "grid";
               Bot.trading_pair := "BTC/USDT"; Bot.exchange := "binance";
               Bot.initial_investment := 1000%float;
               Bot.current_value := 1000%float;
               Bot.is_virtual := true; Bot.settings := ∅;
               Bot.status := "stopped";
               Bot.created_at := 300; Bot.updated_at := 500 |} in
  update_bot 500 signed_in_request "bot_eeee456789ab"
    {| BotUpdate.name := None; BotUpdate.status := Some "";
       BotUpdate.settings := Some ∅ |} one_bot_db
  = (Ok b',
     {| users := users one_bot_db; sessions := sessions one_bot_db;
        bots := [b'] |}).
Proof.
  refine (update_bot_empty_partial 500 signed_in_request one_bot_db test_user
            sample_bot _ _ _ _ _ _ _ _).
  - apply NoDup_singleton.
  - by left.
  - reflexivity.
  - reflexivity.
  - reflexivity.
  - reflexivity.
  - reflexivity.
Defined.

(** ** Start and stop *)


Section OwnedStatus.
Context (request : Request) (user : User.row).

Context (now : timestamp) (d : db) (b : Bot.row).
Hypothesis Hpk : NoDup (Bot.bot_id <$> bots d).
Hypothesis Hb : b ∈ bots d.
Hypothesis Hauth : get_current_user now request d = (Ok user, d).
Hypothesis Hown : Bot.user_id b = User.user_id user.



End OwnedStatus.





(** ** Create *)

(** C5: for a resolved caller, Create appends one row to [bots] and
    returns that row: it carries the caller as owner, the four required
    fields as given, [current_value] equal to [initial_investment], status
    "stopped", and for each of [initial_investment], [is_virtual] and
    [settings] the value given, or 1000.0, true and the empty mapping when
    it is omitted. *)
Theorem create_bot_persists now rng request d user
    name strategy trading_pair exchange initial_investment is_virtual settings :
  get_current_user now request d = (Ok user, d) →
  ∃ bot,
    create_bot now rng request
      (BotCreate.init name strategy trading_pair exchange
                      initial_investment is_virtual settings) d
    = (Ok bot, {| users := users d; sessions := sessions d;
                  bots := bots d ++ [bot] |}) ∧
    Bot.user_id bot = User.user_id user ∧
    Bot.name bot = name ∧ Bot.strategy bot = strategy ∧
    Bot.trading_pair bot = trading_pair ∧ Bot.exchange bot = exchange ∧
    Bot.current_value bot = Bot.initial_investment bot ∧
    Bot.status bot = "stopped" ∧
    Bot.initial_investment bot
      = match initial_investment with Some v => v | None => 1000%float end ∧
    Bot.is_virtual bot
      = match is_virtual with Some v => v | None => true end ∧
    Bot.settings bot
      = match settings with Some v => v | None => ∅ end.
Proof.
  intros Hauth. eexists. split.
  - unfold create_bot. st_unfold. rewrite Hauth. simpl. reflexivity.
  - simpl. by destruct initial_investment, is_virtual, settings.
Qed.

Lemma create_bot_persists_witness :
  ∃ bot,
    create_bot 300 {| hex := "eeee456789abcdef0123456789abcdef" |}
      signed_in_request sample_bot_create signed_in_db
    = (Ok bot, {| users := users signed_in_db;
                  sessions := sessions signed_in_db;
                  bots := bots signed_in_db ++ [bot] |}) ∧
    Bot.current_value bot = Bot.initial_investment bot ∧
    Bot.status bot = "stopped" ∧
    Bot.initial_investment bot = 1000%float.
Proof.
  destruct (create_bot_persists 300
              {| hex := "eeee456789abcdef0123456789abcdef" |}
              signed_in_request signed_in_db test_user
              "Bot1" "grid" "BTC/USDT" "binance" None None None eq_refl)
    as (bot & Hcall & _ & _ & _ & _ & _ & Hvalue & Hstatus & Hinit & _).
  exists bot. done.
Defined.

(** ** Onboarding *)

(** Rewriting user rows without touching [user_id] commutes with session
    resolution. *)
Lemma select_user_by_session_fmap token now d (f : User.row → User.row) :
  (∀ u, User.user_id (f u) = User.user_id u) →
  select_user_by_session token now
    {| users := f <$> users d; sessions := sessions d; bots := bots d |}
  = f <$> select_user_by_session token now d.
Proof.
  intros Hf. unfold select_user_by_session. simpl.
  induction (users d) as [|u us IH]; [done|].
  rewrite fmap_cons, !bind_cons, fmap_app, IH. f_equal.
  rewrite Hf. clear IH. induction (sessions d) as [|s ss IHs]; [done|].
  rewrite !bind_cons, fmap_app, IHs. f_equal.
  by destruct (_ && _ && _).
Qed.

Lemma fetchone_fmap {A B} (f : A → B) (l : list A) :
  fetchone (f <$> l) = f <$> fetchone l.
Proof. by destruct l. Qed.

Lemma get_current_user_fmap now request d user (f : User.row → User.row) :
  (∀ u, User.user_id (f u) = User.user_id u) →
  get_current_user now request d = (Ok user, d) →
  let d' := {| users := f <$> users d; sessions := sessions d;
               bots := bots d |} in
  get_current_user now request d' = (Ok (f user), d').
Proof.
  intros Hf Hauth d'.
  destruct (get_session_token request) as [t|] eqn:Ht;
    [destruct (str_truthy t) eqn:Hs|].
  - apply str_truthy_true in Hs.
    rewrite (get_current_user_token _ _ _ t Ht Hs) in Hauth.
    rewrite (get_current_user_token _ _ _ t Ht Hs). unfold d'.
    rewrite (select_user_by_session_fmap t now d f Hf), fetchone_fmap.
    destruct (fetchone _); simpl; [|done]. by injection Hauth as ->.
  - rewrite get_current_user_no_token in Hauth; [done|]. by rewrite Ht.
  - rewrite get_current_user_no_token in Hauth; [done|]. by rewrite Ht.
Qed.

Lemma jsonb_accepts_object m :
  jsonb_accepts (JObject m) =
  map_fold (fun k v acc => negb (str_has_nul k) && jsonb_accepts v && acc)
           true m.
Proof. reflexivity. Qed.

(** The cast of the one-key object fails exactly when the payload's
    own text is rejected. *)
Lemma jsonb_accepts_onboarding j :
  jsonb_accepts (JObject {[ "onboarding" := j ]}) = jsonb_accepts j.
Proof.
  rewrite jsonb_accepts_object, map_fold_singleton. simpl.
  by rewrite andb_true_r.
Qed.

Lemma complete_onboarding_cases now request body d user :
  get_current_user now request d = (Ok user, d) →
  complete_onboarding now request body d =
    if jsonb_accepts (default (JObject ∅) (body !! "data"))
    then (Ok onboarding_done,
          update_user_onboarding (onboarding_payload body) (User.user_id user) d)
    else (Raise internal_server_error, d).
Proof.
  intros Hauth. unfold complete_onboarding. st_unfold. rewrite Hauth.
  rewrite jsonb_accepts_onboarding. by destruct (jsonb_accepts _).
Qed.

Lemma complete_onboarding_authenticated now request body d user :
  get_current_user now request d = (Ok user, d) →
  jsonb_accepts (default (JObject ∅) (body !! "data")) = true →
  complete_onboarding now request body d =
    (Ok {| onboarding_message := "Onboarding completed";
           onboarding_flag := true |},
     update_user_onboarding
       {[ "onboarding" := default (JObject ∅) (body !! "data") ]}
       (User.user_id user) d).
Proof.
  intros Hauth Hok.
  by rewrite (complete_onboarding_cases _ _ _ _ user Hauth), Hok.
Qed.

Lemma complete_onboarding_rejected now request body d user :
  get_current_user now request d = (Ok user, d) →
  jsonb_accepts (default (JObject ∅) (body !! "data")) = false →
  complete_onboarding now request body d = (Raise internal_server_error, d).
Proof.
  intros Hauth Hno.
  by rewrite (complete_onboarding_cases _ _ _ _ user Hauth), Hno.
Qed.

(** The caller as resolved after the statement. *)
Lemma get_current_user_after_onboarding now request d user payload :
  get_current_user now request d = (Ok user, d) →
  let d' := update_user_onboarding payload (User.user_id user) d in
  get_current_user now request d' = (Ok (complete_user payload user), d').
Proof.
  intros Hauth d'.
  pose proof (get_current_user_fmap now request d user
    (fun u => if decide (User.user_id u = User.user_id user)
              then complete_user payload u else u)) as Hf.
  simpl in Hf. rewrite decide_True in Hf by done. apply Hf; [|done].
  intros u. by destruct (decide _).
Qed.

Lemma complete_user_settings payload data u :
  payload = {[ "onboarding" := data ]} →
  User.settings (complete_user payload u) !! "onboarding" = Some data ∧
  ∀ k, k ≠ "onboarding" →
       User.settings (complete_user payload u) !! k = User.settings u !! k.
Proof.
  intros ->. unfold complete_user, jsonb_concat. simpl. split.
  - apply lookup_union_Some_l, lookup_singleton_eq.
  - intros k Hk. apply lookup_union_r. by apply lookup_singleton_ne.
Qed.

(** C7, the claim as stated fails: for the signed-in test user and the
    body [{"data": 1e400}] the statement's cast to [jsonb] fails, the
    request ends with a server error, and the user resolved afterwards
    still has [onboarding_completed] false and no ["onboarding"] key in
    the settings. *)
Lemma complete_onboarding_rejects_overflow :
  let out := complete_onboarding 500 signed_in_request overflowing_onboarding
                                 themed_db in
  get_current_user 500 signed_in_request themed_db = (Ok themed_user, themed_db) ∧
  out.1 = Raise internal_server_error ∧
  get_current_user 500 signed_in_request out.2 = (Ok themed_user, out.2) ∧
  User.onboarding_completed themed_user = false ∧
  User.settings themed_user !! "onboarding" = None.
Proof. vm_compute. done. Qed.

(** C7: for a resolved caller, when the store accepts the payloads as
    [jsonb], CompleteOnboarding answers with [onboarding_completed] true,
    and the caller resolved afterwards has the flag set, the payload under
    ["onboarding"] in the settings, and every other key of the settings
    as before; after a second call with another payload the same holds
    with the second payload.  When the store rejects the payload of
    either call, that call ends with a server error and leaves the store
    as it found it. *)
Theorem complete_onboarding_merges now1 now2 request body1 body2 d user :
  get_current_user now1 request d = (Ok user, d) →
  get_current_user now2 request d = (Ok user, d) →
  let payload1 := default (JObject ∅) (body1 !! "data") in
  let payload2 := default (JObject ∅) (body2 !! "data") in
  let out1 := complete_onboarding now1 request body1 d in
  let out2 := complete_onboarding now2 request body2 out1.2 in
  (jsonb_accepts payload1 = false → out1 = (Raise internal_server_error, d)) ∧
  (jsonb_accepts payload1 = true → jsonb_accepts payload2 = false →
   out2 = (Raise internal_server_error, out1.2)) ∧
  (jsonb_accepts payload1 = true → jsonb_accepts payload2 = true →
   ∃ user1 user2,
    out1.1 = Ok onboarding_done ∧
    get_current_user now1 request out1.2 = (Ok user1, out1.2) ∧
    User.onboarding_completed user1 = true ∧
    User.settings user1 !! "onboarding" = Some payload1 ∧
    (∀ k, k ≠ "onboarding" →
          User.settings user1 !! k = User.settings user !! k) ∧
    out2.1 = Ok onboarding_done ∧
    get_current_user now2 request out2.2 = (Ok user2, out2.2) ∧
    User.onboarding_completed user2 = true ∧
    User.settings user2 !! "onboarding" = Some payload2 ∧
    (∀ k, k ≠ "onboarding" →
          User.settings user2 !! k = User.settings user !! k)).
Proof.
  intros H1 H2 payload1 payload2 out1 out2. split.
  { intros Hno. by apply (complete_onboarding_rejected _ _ _ _ user). }
  set (p1 := {[ "onboarding" := payload1 ]} : gmap string json).
  set (p2 := {[ "onboarding" := payload2 ]} : gmap string json).
  set (user1 := complete_user p1 user).
  pose proof (get_current_user_after_onboarding _ _ _ _ p1 H1) as A1.
  pose proof (get_current_user_after_onboarding _ _ _ _ p1 H2) as A2.
  simpl in A1, A2. fold user1 in A1, A2.
  split.
  { intros Hok1 Hno2.
    assert (E1 : out1 = (Ok onboarding_done,
                         update_user_onboarding p1 (User.user_id user) d))
      by (by apply complete_onboarding_authenticated).
    unfold out2. rewrite E1.
    by apply (complete_onboarding_rejected _ _ _ _ user1). }
  intros Hok1 Hok2.
  assert (E1 : out1 = (Ok onboarding_done,
                       update_user_onboarding p1 (User.user_id user) d))
    by (by apply complete_onboarding_authenticated).
  assert (E2 : out2 = (Ok onboarding_done,
                       update_user_onboarding p2 (User.user_id user1) out1.2)).
  { unfold out2. rewrite E1. by apply complete_onboarding_authenticated. }
  pose proof (get_current_user_after_onboarding _ _ _ _ p2 A2) as A3.
  simpl in A3.
  destruct (complete_user_settings p1 payload1 user eq_refl) as [S1 F1].
  destruct (complete_user_settings p2 payload2 user1 eq_refl) as [S2 F2].
  exists user1, (complete_user p2 user1). rewrite E2, E1. simpl.
  split_and!; try done.
  intros k Hk. rewrite F2 by done. by apply F1.
Qed.

Lemma complete_onboarding_merges_witness :
  ∃ user2,
    get_current_user 600 signed_in_request
      (complete_onboarding 600 signed_in_request second_onboarding
         (complete_onboarding 500 signed_in_request first_onboarding
            themed_db).2).2 = (Ok user2,
      (complete_onboarding 600 signed_in_request second_onboarding
         (complete_onboarding 500 signed_in_request first_onboarding
            themed_db).2).2) ∧
    User.onboarding_completed user2 = true ∧
    User.settings user2 !! "onboarding"
      = Some (JObject {[ "goal" := JString "trade" ]}) ∧
    User.settings user2 !! "theme" = Some (JString "dark").
Proof.
  destruct (complete_onboarding_merges 500 600 signed_in_request
              first_onboarding second_onboarding themed_db themed_user
              eq_refl eq_refl) as (_ & _ & Hmerge).
  destruct (Hmerge eq_refl eq_refl)
    as (user1 & user2 & _ & _ & _ & _ & _ & _ & Hauth & Hflag & Hset & Hframe).
  exists user2. split_and!; [done..|].
  by rewrite (Hframe "theme").
Defined.

(** ** Session issuance *)

Lemma fetchone_unique {A} (l : list A) x :
  x ∈ l → (∀ y, y ∈ l → y = x) → fetchone l = Some x.
Proof.
  destruct l as [|y l]; [by intros ?%elem_of_nil|].
  intros _ Hall. simpl. f_equal. apply Hall. by left.
Qed.

Lemma elem_of_issued_sessions s session_id user_id token expires_at d :
  s ∈ sessions (insert_session session_id user_id token expires_at
                  (delete_sessions_of_user user_id d)) ↔
  (s ∈ sessions d ∧ Session.user_id s ≠ user_id) ∨
  s = {| Session.session_id := session_id; Session.user_id := user_id;
         Session.session_token := token; Session.expires_at := expires_at |}.
Proof.
  unfold insert_session, delete_sessions_of_user, delete_where. simpl.
  rewrite elem_of_app, list_elem_of_filter, list_elem_of_singleton. tauto.
Qed.

(** After the old sessions of a user are deleted and a session with a
    token nobody else holds is inserted, that token resolves to the user
    until the session expires. *)
Lemma resolve_issued_session d user session_id token expires_at later :
  NoDup (User.user_id <$> users d) →
  user ∈ users d →
  token ∉ Session.session_token <$> sessions d →
  later < expires_at →
  fetchone (select_user_by_session token later
              (insert_session session_id (User.user_id user) token expires_at
                 (delete_sessions_of_user (User.user_id user) d)))
  = Some user.
Proof.
  intros Hpk Huser Hfresh Hlater. apply fetchone_unique.
  - apply elem_of_select_user_by_session. split; [done|].
    eexists. split; [apply elem_of_issued_sessions; by right|]. done.
  - intros u (Hu & s & Hs & Hid & Htok & _)%elem_of_select_user_by_session.
    apply elem_of_issued_sessions in Hs as [[Hs _]| ->].
    + destruct Hfresh. rewrite <- Htok. by apply list_elem_of_fmap_2.
    + by apply (key_determines_row User.user_id (users d)).
Qed.

(** What [create_session] does once the profile is known: it finds or
    inserts the user ([d1] is the store at that point), then swaps the
    user's sessions for a new one. *)
Lemma create_session_issues emergent_auth now rng session_id d auth_data :
  session_id ≠ "" →
  exchange_session_id emergent_auth session_id d = (Ok auth_data, d) →
  ∃ user d1,
    user ∈ users d1 ∧
    User.email user = auth_email auth_data ∧
    sessions d1 = sessions d ∧ bots d1 = bots d ∧
    (User.user_id <$> users d1 = User.user_id <$> users d ∨
     User.user_id <$> users d1
       = ((User.user_id <$> users d) ++ [new_user_id rng])%list) ∧
    create_session emergent_auth now rng (Some session_id) d =
      (Ok (session_created user (new_session_token rng)),
       insert_session (uuid_str (uuid_session rng)) (User.user_id user)
         (new_session_token rng) (now + timedelta_days 7)
         (delete_sessions_of_user (User.user_id user) d1)).
Proof.
  intros Hsid%str_truthy_true Hex.
  assert (Hbody : ∀ k : AuthData → St db SessionCreated,
            (if negb (opt_str_truthy (Some session_id))
             then raise 400 "session_id required"
             else auth_data ← exchange_session_id emergent_auth
                                (default "" (Some session_id)); k auth_data) d
            = k auth_data d).
  { intros k. simpl. rewrite Hsid. simpl.
    unfold mbind, St_bind, bind. by rewrite Hex. }
  unfold create_session. setoid_rewrite Hbody. clear Hbody.
  set (email := auth_email auth_data).
  destruct (select_users_by_email email d) as [|u0 rows] eqn:Hsel.
  - exists {| User.user_id := new_user_id rng; User.email := email;
              User.name := auth_name auth_data;
              User.picture := auth_picture auth_data;
              User.onboarding_completed := false; User.settings := ∅ |},
           {| users := users d ++
                [{| User.user_id := new_user_id rng; User.email := email;
                    User.name := auth_name auth_data;
                    User.picture := auth_picture auth_data;
                    User.onboarding_completed := false;
                    User.settings := ∅ |}];
              sessions := sessions d; bots := bots d |}.
    split_and!; try done.
    + simpl. apply elem_of_app. right. by left.
    + right. simpl. by rewrite fmap_app.
    + st_unfold. simpl. fold email. rewrite Hsel. simpl. reflexivity.
  - assert (Hu0 : u0 ∈ users d ∧ User.email u0 = email).
    { assert (Hin : u0 ∈ select_users_by_email email d)
        by (rewrite Hsel; by left).
      apply list_elem_of_filter in Hin. tauto. }
    destruct Hu0 as [Hu0 He0].
    set (f := set_name_picture (auth_name auth_data) (auth_picture auth_data)).
    exists (f u0),
           {| users := (update_where (fun u => User.email u = email) f
                                     (users d)).2;
              sessions := sessions d; bots := bots d |}.
    split_and!; try done.
    + simpl. apply list_elem_of_fmap. exists u0. by rewrite decide_True.
    + left. by apply update_where_fmap.
    + st_unfold. simpl. fold email. rewrite Hsel. simpl.
      unfold select_users_by_email in Hsel. rewrite Hsel. simpl.
      reflexivity.
Qed.

(** When the profile lookup succeeds: the bypass, or a 200 answer. *)
Lemma exchange_session_id_ok emergent_auth session_id d auth_data :
  exchange_session_id emergent_auth session_id d = (Ok auth_data, d) ↔
  (session_id = "test_session_id" ∧ auth_data = test_auth_data) ∨
  (session_id ≠ "test_session_id" ∧
   ∃ auth_response,
     emergent_auth session_id = Some auth_response ∧
     auth_status_code auth_response = 200 ∧
     auth_data = auth_json auth_response).
Proof.
  unfold exchange_session_id. case_bool_decide as Hsid.
  - unfold ret. split; [intros [= <-]; by left|].
    by intros [[_ ->]|[? _]].
  - destruct (emergent_auth session_id) as [auth_response|]; unfold raise.
    + destruct (Z.eqb_spec (auth_status_code auth_response) 200)
        as [Hc|Hc]; simpl; unfold ret, raise.
      * split; [intros [= <-]; right; eauto|].
        by intros [[? _]|(_ & r & [= <-] & _ & ->)].
      * split; [done|]. by intros [[? _]|(_ & r & [= <-] & ? & _)].
    + split; [done|]. by intros [[? _]|(_ & r & ? & _)].
Qed.

(** C1: for a non-empty session id that is the bypass id, with the test
    identity's email, or an id the exchange answers with status 200, with
    the email of that answer, CreateSession succeeds and returns that
    email, and any request carrying the returned token resolves, at any
    time before the seven days are over, to a user with that email.  The
    store has [user_id] as a key and the generated identifiers are new. *)
Theorem session_round_trip emergent_auth now rng session_id d email :
  session_id ≠ "" →
  (session_id = "test_session_id" ∧ email = "test@tensorx.com") ∨
  (session_id ≠ "test_session_id" ∧
   ∃ auth_response,
     emergent_auth session_id = Some auth_response ∧
     auth_status_code auth_response = 200 ∧
     email = auth_email (auth_json auth_response)) →
  NoDup (User.user_id <$> users d) →
  new_user_id rng ∉ User.user_id <$> users d →
  new_session_token rng ∉ Session.session_token <$> sessions d →
  ∃ created d',
    create_session emergent_auth now rng (Some session_id) d
      = (Ok created, d') ∧
    UserResponse.email (created_user created) = email ∧
    ∀ later request,
      later < now + timedelta_days 7 →
      get_session_token request = Some (created_session_token created) →
      ∃ user,
        get_current_user later request d' = (Ok user, d') ∧
        User.email user = email.
Proof.
  intros Hsid Hanswer Hpk Hnew Hfresh.
  assert (∃ auth_data,
            exchange_session_id emergent_auth session_id d = (Ok auth_data, d) ∧
            email = auth_email auth_data) as (auth_data & Hex & ->).
  { destruct Hanswer as [[-> ->]|(Hne & r & Hr & Hc & ->)].
    - exists test_auth_data. split; [|done].
      apply exchange_session_id_ok. by left.
    - exists (auth_json r). split; [|done].
      apply exchange_session_id_ok. right. eauto. }
  destruct (create_session_issues emergent_auth now rng session_id d
              auth_data Hsid Hex)
    as (user & d1 & Huser & Hemail & Hsess & _ & Hids & Hcall).
  eexists _, _. split; [exact Hcall|]. split; [done|].
  intros later request Hlater Htoken. exists user. split; [|done].
  rewrite (get_current_user_token _ _ _ _ Htoken) by done.
  simpl. rewrite resolve_issued_session; try done.
  - destruct Hids as [->| ->]; [done|].
    apply NoDup_app. split_and!; [done| |apply NoDup_singleton].
    intros x Hx ->%list_elem_of_singleton. done.
  - by rewrite Hsess.
Qed.

(** The sign-in of "bob" through the exchange, on the store with one bot. *)
Lemma bob_signs_in :
  create_session accepting_exchange 400 other_uuids (Some "bob") one_bot_db
  = (Ok (session_created bob (new_session_token other_uuids)), two_user_db).
Proof. vm_compute. reflexivity. Qed.

Lemma session_round_trip_witness :
  ∃ user,
    get_current_user 500 bob_request two_user_db = (Ok user, two_user_db) ∧
    User.email user = "bob@example.com".
Proof.
  destruct (session_round_trip accepting_exchange 400 other_uuids
              "bob" one_bot_db "bob@example.com")
    as (created & d' & Hcall & _ & Hresolve).
  - discriminate.
  - right. split; [discriminate|].
    eexists. split; [reflexivity|]. split; reflexivity.
  - vm_compute. apply NoDup_singleton.
  - vm_compute. by intros ?%list_elem_of_singleton.
  - vm_compute. by intros ?%list_elem_of_singleton.
  - rewrite bob_signs_in in Hcall. injection Hcall as <- <-.
    apply (Hresolve 500 bob_request); [|vm_compute; reflexivity].
    unfold timedelta_days. lia.
Defined.

(** ** One session per user *)

Lemma exchange_session_id_cases emergent_auth session_id d :
  (∃ auth_data,
     exchange_session_id emergent_auth session_id d = (Ok auth_data, d)) ∨
  (∃ e, exchange_session_id emergent_auth session_id d = (Raise e, d)).
Proof.
  unfold exchange_session_id. case_bool_decide; [left; by eexists|].
  destruct (emergent_auth session_id); [|right; by eexists].
  destruct (negb _); [right|left]; by eexists.
Qed.

(** [create_session] either raises and leaves the store as it was, or
    answers as [create_session_issues] says. *)
Lemma create_session_cases emergent_auth now rng session_id d :
  (∃ e, create_session emergent_auth now rng session_id d = (Raise e, d)) ∨
  (∃ user d1,
     sessions d1 = sessions d ∧
     create_session emergent_auth now rng session_id d =
       (Ok (session_created user (new_session_token rng)),
        insert_session (uuid_str (uuid_session rng)) (User.user_id user)
          (new_session_token rng) (now + timedelta_days 7)
          (delete_sessions_of_user (User.user_id user) d1))).
Proof.
  destruct session_id as [sid|]; [|left; by eexists].
  destruct (str_truthy sid) eqn:Hsid.
  - destruct (exchange_session_id_cases emergent_auth sid d)
      as [[auth_data Hex]|[e Hex]].
    + right. apply str_truthy_true in Hsid.
      destruct (create_session_issues emergent_auth now rng sid d auth_data
                  Hsid Hex) as (user & d1 & _ & _ & Hs & _ & _ & Hcall).
      by exists user, d1.
    + left. exists e. unfold create_session. simpl. rewrite Hsid. simpl.
      unfold mbind, St_bind, bind. by rewrite Hex.
  - left. eexists. unfold create_session. simpl. rewrite Hsid. simpl.
    reflexivity.
Qed.

Lemma session_count_issued uid session_id user_id token expires_at d :
  session_count uid (insert_session session_id user_id token expires_at
                       (delete_sessions_of_user user_id d))
  = if decide (uid = user_id) then 1%nat else session_count uid d.
Proof.
  unfold session_count, insert_session, delete_sessions_of_user, delete_where.
  simpl. rewrite filter_app, length_app, filter_singleton; [|exact []].
  simpl. destruct (decide (uid = user_id)) as [->|Hne].
  - rewrite decide_True by done. rewrite filter_none; [done|].
    intros s [Hs _]%list_elem_of_filter. done.
  - rewrite decide_False by done. simpl. rewrite Nat.add_0_r. f_equal.
    rewrite list_filter_filter. apply list_filter_iff. intros s.
    split; [tauto|]. intros Hs. split; [done|]. congruence.
Qed.

Lemma length_filter_filter {A} (P Q : A → Prop)
    `{!∀ r, Decision (P r), !∀ r, Decision (Q r)} (t : list A) :
  (length (filter P (filter Q t)) ≤ length (filter P t))%nat.
Proof.
  induction t as [|r t IH]; [done|]. rewrite !filter_cons.
  destruct (decide (Q r)), (decide (P r)); rewrite ?filter_cons;
    repeat case_decide; simpl; try done; lia.
Qed.

Lemma session_count_logout uid token d :
  (session_count uid (delete_sessions_by_token token d)
   ≤ session_count uid d)%nat.
Proof.
  unfold session_count, delete_sessions_by_token, delete_where. simpl.
  apply length_filter_filter.
Qed.

Lemma logout_sessions request d :
  (logout request d).2 = d ∨
  ∃ token, (logout request d).2 = delete_sessions_by_token token d.
Proof.
  unfold logout. st_unfold.
  destruct (opt_str_truthy (get_session_token request)); simpl; eauto.
Qed.

(** No protected endpoint writes to [users]' keys or to [sessions]. *)
Lemma call_sessions e now request d :
  sessions (call e now request d).2 = sessions d.
Proof.
  pose proof (get_current_user_readonly now request d) as Hro.
  destruct (get_current_user now request d) as [[user|exn] d0] eqn:Hauth;
    simpl in Hro; subst d0.
  - destruct e;
      [ | unfold call, observe;
          rewrite (complete_onboarding_cases _ _ _ _ user Hauth);
          by destruct (jsonb_accepts _) | .. ];
      unfold call, observe, get_me, get_bots,
        create_bot, get_bot, update_bot, delete_bot, start_bot, stop_bot;
      st_unfold; rewrite Hauth; simpl; repeat case_match; by simplify_eq/=.
  - by rewrite (call_unauthenticated _ _ _ _ exn).
Qed.

Lemma at_most_one_session_empty : at_most_one_session empty_db.
Proof. intros uid. unfold session_count. simpl. lia. Qed.

Lemma create_session_preserves emergent_auth now rng session_id d :
  at_most_one_session d →
  at_most_one_session (create_session emergent_auth now rng session_id d).2.
Proof.
  intros Hinv.
  destruct (create_session_cases emergent_auth now rng session_id d)
    as [[e ->]|(user & d1 & Hs & ->)]; [done|].
  intros uid. simpl. rewrite session_count_issued.
  case_decide; [done|]. unfold session_count. rewrite Hs. apply Hinv.
Qed.

Lemma step_preserves emergent_auth d op :
  at_most_one_session d → at_most_one_session (step emergent_auth d op).
Proof.
  intros Hinv. destruct op as [now rng session_id|request|now request e].
  - by apply create_session_preserves.
  - simpl. destruct (logout_sessions request d) as [->|[token ->]]; [done|].
    intros uid. etrans; [apply session_count_logout|apply Hinv].
  - intros uid. unfold session_count. simpl. rewrite call_sessions.
    apply Hinv.
Qed.

Lemma run_preserves emergent_auth ops d :
  at_most_one_session d → at_most_one_session (run emergent_auth ops d).
Proof.
  unfold run. revert d. induction ops as [|op ops IH]; intros d Hinv; [done|].
  simpl. by apply IH, step_preserves.
Qed.

(** C2: no user ever has more than one session row, from the empty store
    and across any sequence of requests; a successful CreateSession leaves
    its user with exactly one row and every other user's rows as they
    were; and once the same user has signed in again with another token,
    the first token (new when it was issued) resolves to nothing: 401. *)
Theorem single_session_per_user emergent_auth :
  (∀ ops, at_most_one_session (run emergent_auth ops empty_db)) ∧
  (∀ ops d, at_most_one_session d →
            at_most_one_session (run emergent_auth ops d)) ∧
  (∀ now rng session_id d created d',
     create_session emergent_auth now rng session_id d = (Ok created, d') →
     let user_id := UserResponse.user_id (created_user created) in
     session_count user_id d' = 1%nat ∧
     ∀ other, other ≠ user_id →
              session_count other d' = session_count other d) ∧
  (∀ now1 rng1 sid1 now2 rng2 sid2 d first d1 second d2 later request,
     create_session emergent_auth now1 rng1 sid1 d = (Ok first, d1) →
     create_session emergent_auth now2 rng2 sid2 d1 = (Ok second, d2) →
     UserResponse.user_id (created_user second)
       = UserResponse.user_id (created_user first) →
     created_session_token first ∉ Session.session_token <$> sessions d →
     created_session_token second ≠ created_session_token first →
     get_session_token request = Some (created_session_token first) →
     get_current_user later request d2 = (Raise invalid_session, d2)).
Proof.
  split_and!.
  - intros ops. apply run_preserves, at_most_one_session_empty.
  - intros ops d. apply run_preserves.
  - intros now rng session_id d created d' Hcall user_id.
    destruct (create_session_cases emergent_auth now rng session_id d)
      as [[e He]|(user & d0 & Hs & Hok)]; [congruence|].
    rewrite Hok in Hcall. injection Hcall as <- <-. subst user_id. simpl.
    split.
    + rewrite session_count_issued. by rewrite decide_True.
    + intros other Hother. rewrite session_count_issued.
      rewrite decide_False by done. unfold session_count. by rewrite Hs.
  - intros now1 rng1 sid1 now2 rng2 sid2 d first d1 second d2 later request
      Hcall1 Hcall2 Hsame Hfresh Hdiff Htoken.
    destruct (create_session_cases emergent_auth now1 rng1 sid1 d)
      as [[e He]|(user1 & d0 & Hs0 & Hok1)]; [congruence|].
    rewrite Hok1 in Hcall1. injection Hcall1 as <- <-.
    destruct (create_session_cases emergent_auth now2 rng2 sid2
      (insert_session (uuid_str (uuid_session rng1)) (User.user_id user1)
         (new_session_token rng1) (now1 + timedelta_days 7)
         (delete_sessions_of_user (User.user_id user1) d0)))
      as [[e He]|(user2 & d0' & Hs1 & Hok2)]; [congruence|].
    rewrite Hok2 in Hcall2. injection Hcall2 as <- <-.
    simpl in Hsame, Hfresh, Hdiff, Htoken.
    rewrite (get_current_user_token _ _ _ _ Htoken) by done.
    rewrite no_live_session_no_user; [done|].
    intros s Hs Htok. exfalso.
    apply elem_of_issued_sessions in Hs as [[Hs Hu]| ->]; [|done].
    rewrite Hs1 in Hs.
    apply elem_of_issued_sessions in Hs as [[Hs _]| ->].
    + apply Hfresh. rewrite <- Htok, <- Hs0. by apply list_elem_of_fmap_2.
    + simpl in Hu. congruence.
Qed.

Lemma single_session_per_user_witness :
  get_current_user 200 signed_in_request signed_in_twice_db
  = (Raise invalid_session, signed_in_twice_db).
Proof.
  apply (proj2 (proj2 (proj2 (single_session_per_user rejecting_exchange)))
           100 sample_uuids (Some "test_session_id")
           150 other_uuids (Some "test_session_id") empty_db
           (session_created test_user (new_session_token sample_uuids))
           signed_in_db
           (session_created test_user (new_session_token other_uuids))
           signed_in_twice_db 200 signed_in_request).
  - reflexivity.
  - reflexivity.
  - reflexivity.
  - apply not_elem_of_nil.
  - discriminate.
  - reflexivity.
Defined.

(** ** The scenario of the specification, run on the model *)

(** The test identity signs in, creates a bot, starts it and deletes it;
    reading it afterwards answers 404. *)
Example sign_in_create_start_delete :
  let bot_id := "bot_eeee456789ab" in
  let d1 := (start_bot 400 signed_in_request bot_id one_bot_db).2 in
  let d2 := (delete_bot 500 signed_in_request bot_id d1).2 in
  (create_session rejecting_exchange 100 sample_uuids
                  (Some "test_session_id") empty_db).1
    = Ok (session_created test_user (new_session_token sample_uuids)) ∧
  (create_bot 300 {| hex := "eeee456789abcdef0123456789abcdef" |}
              signed_in_request sample_bot_create signed_in_db).1
    = Ok sample_bot ∧
  Bot.status <$> bots d1 = ["running"] ∧
  (delete_bot 500 signed_in_request bot_id d1).1
    = Ok {| message := "Bot deleted successfully" |} ∧
  (get_bot 600 signed_in_request bot_id d2).1 = Raise bot_not_found.
Proof. by vm_compute. Qed.

(** Logout without a token succeeds and writes nothing. *)
Example logout_without_token d :
  logout {| cookies := ∅; headers := ∅ |} d
  = (Ok {| logout_message := "Logged out successfully";
           logout_cookie := {| deleted_key := "session_token";
                               deleted_path := "/" |} |}, d).
Proof. reflexivity. Qed.

(** * Further properties of the handlers *)

(** ** Logout *)

Lemma logout_no_token request d :
  opt_str_truthy (get_session_token request) = false →
  logout request d = (Ok logged_out, d).
Proof. intros Hno. unfold logout. st_unfold. by rewrite Hno. Qed.

Lemma logout_token request d token :
  get_session_token request = Some token → token ≠ "" →
  logout request d = (Ok logged_out, delete_sessions_by_token token d).
Proof.
  intros Ht Hne%str_truthy_true. unfold logout. st_unfold.
  rewrite Ht. simpl. by rewrite Hne.
Qed.

Lemma elem_of_sessions_after_logout s token d :
  s ∈ sessions (delete_sessions_by_token token d) ↔
  s ∈ sessions d ∧ Session.session_token s ≠ token.
Proof.
  unfold delete_sessions_by_token, delete_where. simpl.
  rewrite list_elem_of_filter. tauto.
Qed.

(** Deleting the sessions of one token does not change what another token
    resolves to. *)
Lemma select_user_by_session_other_token token other now d :
  other ≠ token →
  select_user_by_session other now (delete_sessions_by_token token d)
  = select_user_by_session other now d.
Proof.
  intros Hne. unfold select_user_by_session, delete_sessions_by_token,
    delete_where. simpl.
  apply list_bind_ext; [|done]. intros u.
  induction (sessions d) as [|s ss IH]; [done|].
  rewrite filter_cons. destruct (decide (Session.session_token s ≠ token))
    as [Hs|Hs]; rewrite !bind_cons, IH; [done|].
  apply dec_stable in Hs.
  rewrite (bool_decide_eq_false_2 (Session.session_token s = other))
    by congruence.
  by rewrite andb_false_r.
Qed.

(** X1: after a logout that carried a token, no request carrying that
    token resolves any more, at any time: session resolution raises 401
    "Invalid or expired session".  The logout itself succeeds. *)
Theorem logout_invalidates_token request d token later request' :
  get_session_token request = Some token → token ≠ "" →
  get_session_token request' = Some token →
  (logout request d).1 = Ok logged_out ∧
  get_current_user later request' (logout request d).2
  = (Raise invalid_session, (logout request d).2).
Proof.
  intros Ht Hne Ht'. rewrite (logout_token _ _ _ Ht Hne). split; [done|].
  simpl. rewrite (get_current_user_token _ _ _ _ Ht' Hne).
  rewrite no_live_session_no_user; [done|].
  intros s [_ Hs]%elem_of_sessions_after_logout Htok. done.
Qed.

Lemma logout_invalidates_token_witness :
  get_current_user 200 signed_in_request (logout signed_in_request signed_in_db).2
  = (Raise invalid_session, (logout signed_in_request signed_in_db).2).
Proof.
  refine (proj2 (logout_invalidates_token signed_in_request signed_in_db
                   "sess_aaaa456789abcdef0123456789abcdef" 200
                   signed_in_request _ _ _)).
  - reflexivity.
  - discriminate.
  - reflexivity.
Defined.

(** X2: logout writes to [sessions] only, and only to the rows of its own
    token: users and bots stay as they are, and a request carrying any
    other token resolves after the logout exactly as it did before. *)
Theorem logout_spares_other_sessions request d now request' :
  get_session_token request' ≠ get_session_token request →
  users (logout request d).2 = users d ∧
  bots (logout request d).2 = bots d ∧
  (get_current_user now request' (logout request d).2).1
  = (get_current_user now request' d).1.
Proof.
  intros Hother.
  destruct (get_session_token request) as [token|] eqn:Ht;
    [destruct (str_truthy token) eqn:Hs|].
  - apply str_truthy_true in Hs. rewrite (logout_token _ _ _ Ht Hs). simpl.
    split_and!; [done..|].
    destruct (get_session_token request') as [other|] eqn:Ht';
      [destruct (str_truthy other) eqn:Hs'|].
    + apply str_truthy_true in Hs'.
      rewrite !(get_current_user_token _ _ _ _ Ht' Hs').
      rewrite select_user_by_session_other_token by congruence.
      by destruct (fetchone _).
    + rewrite !get_current_user_no_token; [done|by rewrite Ht'..].
    + rewrite !get_current_user_no_token; [done|by rewrite Ht'..].
  - rewrite logout_no_token; [done|]. by rewrite Ht.
  - rewrite logout_no_token; [done|]. by rewrite Ht.
Qed.

Lemma logout_spares_other_sessions_witness :
  (get_current_user 500 bob_request (logout signed_in_request two_user_db).2).1
  = (get_current_user 500 bob_request two_user_db).1.
Proof.
  refine (proj2 (proj2 (logout_spares_other_sessions signed_in_request
                          two_user_db 500 bob_request _))).
  discriminate.
Defined.

(** X3: logout is idempotent (a second logout of the same request changes
    nothing more), and a logout without a token changes nothing at all. *)
Theorem logout_idempotent request d :
  logout request (logout request d).2 = logout request d ∧
  (opt_str_truthy (get_session_token request) = false →
   logout request d = (Ok logged_out, d)).
Proof.
  split; [|apply logout_no_token].
  destruct (get_session_token request) as [token|] eqn:Ht;
    [destruct (str_truthy token) eqn:Hs|].
  - apply str_truthy_true in Hs. rewrite !(logout_token _ _ _ Ht Hs).
    simpl. f_equal. unfold delete_sessions_by_token, delete_where. simpl.
    f_equal. by rewrite list_filter_filter_l.
  - rewrite !logout_no_token; [done|by rewrite Ht..].
  - rewrite !logout_no_token; [done|by rewrite Ht..].
Qed.

(** ** Sign-in: failures and the user upsert *)

(** The two ways [create_session] succeeds, by whether the profile's email
    is already in [users]. *)
Lemma create_session_upsert emergent_auth now rng session_id d auth_data :
  session_id ≠ "" →
  exchange_session_id emergent_auth session_id d = (Ok auth_data, d) →
  (select_users_by_email (auth_email auth_data) d = [] ∧
   create_session emergent_auth now rng (Some session_id) d =
     (Ok (session_created (new_user_row rng auth_data)
                          (new_session_token rng)),
      issue_session now rng (new_user_row rng auth_data)
                    (users d ++ [new_user_row rng auth_data]) d)) ∨
  (∃ u0 rest,
     select_users_by_email (auth_email auth_data) d = u0 :: rest ∧
     let user := set_name_picture (auth_name auth_data)
                                  (auth_picture auth_data) u0 in
     create_session emergent_auth now rng (Some session_id) d =
       (Ok (session_created user (new_session_token rng)),
        issue_session now rng user (refresh_profile auth_data (users d)) d)).
Proof.
  intros Hsid%str_truthy_true Hex.
  assert (Hbody : ∀ k : AuthData → St db SessionCreated,
            (if negb (opt_str_truthy (Some session_id))
             then raise 400 "session_id required"
             else auth_data ← exchange_session_id emergent_auth
                                (default "" (Some session_id)); k auth_data) d
            = k auth_data d).
  { intros k. simpl. rewrite Hsid. simpl.
    unfold mbind, St_bind, bind. by rewrite Hex. }
  unfold create_session. rewrite Hbody. clear Hbody.
  set (email := auth_email auth_data).
  destruct (select_users_by_email email d) as [|u0 rest] eqn:Hsel.
  - left. split; [done|].
    st_unfold. simpl. fold email. rewrite Hsel. simpl. reflexivity.
  - right. exists u0, rest. split; [done|].
    st_unfold. simpl. fold email. rewrite Hsel. simpl.
    unfold select_users_by_email in Hsel. rewrite Hsel. simpl.
    reflexivity.
Qed.

Lemma create_session_no_id emergent_auth now rng session_id d :
  opt_str_truthy session_id = false →
  create_session emergent_auth now rng session_id d
  = (Raise session_id_required, d).
Proof. intros Hno. unfold create_session. by rewrite Hno. Qed.

Lemma create_session_rejected emergent_auth now rng session_id d e :
  session_id ≠ "" →
  exchange_session_id emergent_auth session_id d = (Raise e, d) →
  create_session emergent_auth now rng (Some session_id) d = (Raise e, d).
Proof.
  intros Hsid%str_truthy_true Hex. unfold create_session. simpl.
  rewrite Hsid. simpl. unfold mbind, St_bind, bind. by rewrite Hex.
Qed.

(** X4: [create_session] without a [session_id], or with an empty one,
    raises 400 "session_id required"; with an id the exchange answers with
    a status other than 200 it raises 401 "Invalid session_id"; with an id
    the exchange does not answer it ends with a server error; all three
    leave the store as it was.  The bypass id never consults the
    exchange. *)
Theorem create_session_failures emergent_auth now rng d :
  (∀ session_id,
     opt_str_truthy session_id = false →
     create_session emergent_auth now rng session_id d
     = (Raise session_id_required, d)) ∧
  (∀ session_id auth_response,
     session_id ≠ "" → session_id ≠ "test_session_id" →
     emergent_auth session_id = Some auth_response →
     auth_status_code auth_response ≠ 200 →
     create_session emergent_auth now rng (Some session_id) d
     = (Raise invalid_session_id, d)) ∧
  (∀ session_id,
     session_id ≠ "" → session_id ≠ "test_session_id" →
     emergent_auth session_id = None →
     create_session emergent_auth now rng (Some session_id) d
     = (Raise internal_server_error, d)) ∧
  (∀ other_exchange,
     create_session emergent_auth now rng (Some "test_session_id") d
     = create_session other_exchange now rng (Some "test_session_id") d).
Proof.
  split_and!.
  - intros session_id. apply create_session_no_id.
  - intros session_id auth_response Hne Hsentinel Hanswer Hstatus.
    apply create_session_rejected; [done|].
    unfold exchange_session_id. rewrite bool_decide_eq_false_2 by done.
    rewrite Hanswer.
    by destruct (Z.eqb_spec (auth_status_code auth_response) 200).
  - intros session_id Hne Hsentinel Hanswer.
    apply create_session_rejected; [done|].
    unfold exchange_session_id. rewrite bool_decide_eq_false_2 by done.
    by rewrite Hanswer.
  - intros other_exchange. reflexivity.
Qed.

Lemma create_session_failures_witness :
  create_session rejecting_exchange 100 sample_uuids (Some "") signed_in_db
    = (Raise session_id_required, signed_in_db) ∧
  create_session rejecting_exchange 100 sample_uuids (Some "abc") signed_in_db
    = (Raise invalid_session_id, signed_in_db).
Proof.
  destruct (create_session_failures rejecting_exchange 100 sample_uuids
              signed_in_db) as (Hmissing & Hrejected & _).
  split.
  - by apply Hmissing.
  - by eapply Hrejected.
Defined.

Lemma select_users_by_email_nil email d :
  select_users_by_email email d = [] ↔ ∀ u, u ∈ users d → User.email u ≠ email.
Proof.
  unfold select_users_by_email. split.
  - intros Hnil u Hu He. by eapply (filter_nil_not_elem_of _ _ u).
  - apply filter_none.
Qed.

Lemma elem_of_refresh_profile auth_data t r :
  r ∈ refresh_profile auth_data t ↔
  ∃ u, u ∈ t ∧
       r = if decide (User.email u = auth_email auth_data)
           then set_name_picture (auth_name auth_data)
                                 (auth_picture auth_data) u
           else u.
Proof.
  unfold refresh_profile. rewrite list_elem_of_fmap.
  split; intros (u & H1 & H2); by exists u.
Qed.

(** X5: signing in with an email already in [users] adds no row: every
    row keeps its [user_id], [email], [onboarding_completed] and
    [settings]; the rows of that email get the name and picture of the
    profile; rows of other emails, and all bots, are untouched. *)
Theorem sign_in_known_email emergent_auth now rng session_id d auth_data u :
  session_id ≠ "" →
  exchange_session_id emergent_auth session_id d = (Ok auth_data, d) →
  u ∈ users d → User.email u = auth_email auth_data →
  let kept (r : User.row) :=
    (User.user_id r, User.email r, User.onboarding_completed r,
     User.settings r) in
  ∃ created d',
    create_session emergent_auth now rng (Some session_id) d
      = (Ok created, d') ∧
    kept <$> users d' = kept <$> users d ∧
    (∀ r, r ∈ users d' → User.email r = auth_email auth_data →
          User.name r = auth_name auth_data ∧
          User.picture r = auth_picture auth_data) ∧
    (∀ r, User.email r ≠ auth_email auth_data →
          r ∈ users d' ↔ r ∈ users d) ∧
    bots d' = bots d.
Proof.
  intros Hsid Hex Hu He kept.
  destruct (create_session_upsert emergent_auth now rng session_id d
              auth_data Hsid Hex) as [[Hnil _]|(u0 & rest & _ & Hcall)].
  { by destruct (proj1 (select_users_by_email_nil _ _) Hnil u Hu). }
  eexists _, _. split; [exact Hcall|]. simpl. split_and!; [| | |done].
  - unfold refresh_profile. rewrite <- list_fmap_compose.
    apply list_fmap_ext. intros i r _. simpl. by case_decide.
  - intros r (r0 & _ & ->)%elem_of_refresh_profile. by case_decide.
  - intros r Hr. rewrite elem_of_refresh_profile. split.
    + intros (r0 & Hr0 & ->). case_decide; [done|done].
    + intros Hin. exists r. by rewrite decide_False.
Qed.

Lemma sign_in_known_email_witness :
  ∃ created d',
    create_session rejecting_exchange 150 other_uuids
                   (Some "test_session_id") signed_in_db = (Ok created, d') ∧
    User.user_id <$> users d' = ["user_0123456789ab"].
Proof.
  destruct (sign_in_known_email rejecting_exchange 150 other_uuids
              "test_session_id" signed_in_db test_auth_data test_user)
    as (created & d' & Hcall & Hkept & _).
  - discriminate.
  - reflexivity.
  - by left.
  - reflexivity.
  - exists created, d'. split; [done|].
    apply (f_equal (fmap (fun k => k.1.1.1))) in Hkept.
    rewrite <- !list_fmap_compose in Hkept. exact Hkept.
Defined.

(** X6: signing in with an email no row of [users] has appends exactly
    one row, which carries the generated identifier and the profile's
    email, name and picture, and is the user of the answer; the other
    rows and all bots are untouched. *)
Theorem sign_in_new_email emergent_auth now rng session_id d auth_data :
  session_id ≠ "" →
  exchange_session_id emergent_auth session_id d = (Ok auth_data, d) →
  (∀ u, u ∈ users d → User.email u ≠ auth_email auth_data) →
  ∃ created d' row,
    create_session emergent_auth now rng (Some session_id) d
      = (Ok created, d') ∧
    users d' = (users d ++ [row])%list ∧
    created_user created = user_response row ∧
    User.user_id row = new_user_id rng ∧
    User.email row = auth_email auth_data ∧
    User.name row = auth_name auth_data ∧
    User.picture row = auth_picture auth_data ∧
    bots d' = bots d.
Proof.
  intros Hsid Hex Hnew.
  destruct (create_session_upsert emergent_auth now rng session_id d
              auth_data Hsid Hex) as [[_ Hcall]|(u0 & rest & Hsel & _)].
  - eexists _, _, _. split; [exact Hcall|]. done.
  - assert (Hin : u0 ∈ select_users_by_email (auth_email auth_data) d)
      by (rewrite Hsel; by left).
    apply list_elem_of_filter in Hin as [He Hin]. by destruct (Hnew u0 Hin).
Qed.

Lemma sign_in_new_email_witness :
  ∃ created d' row,
    create_session accepting_exchange 400 other_uuids (Some "bob") one_bot_db
      = (Ok created, d') ∧
    users d' = (users one_bot_db ++ [row])%list ∧
    User.email row = "bob@example.com".
Proof.
  destruct (sign_in_new_email accepting_exchange 400 other_uuids "bob"
              one_bot_db
              {| auth_email := "bob@example.com"; auth_name := "bob";
                 auth_picture := None |})
    as (created & d' & row & Hcall & Husers & _ & _ & Hemail & _).
  - discriminate.
  - reflexivity.
  - intros u ->%list_elem_of_singleton. discriminate.
  - by exists created, d', row.
Defined.

(** ** Users across requests *)

Lemma refresh_profile_identity auth_data t :
  user_identity <$> refresh_profile auth_data t = user_identity <$> t.
Proof.
  unfold refresh_profile. rewrite <- list_fmap_compose.
  apply list_fmap_ext. intros i r _. simpl. by case_decide.
Qed.

(** What [create_session] can do to [users]. *)
Lemma create_session_users emergent_auth now rng session_id d :
  let d' := (create_session emergent_auth now rng session_id d).2 in
  user_identity <$> users d' = user_identity <$> users d ∨
  ∃ row, users d' = (users d ++ [row])%list ∧
         ∀ u, u ∈ users d → User.email u ≠ User.email row.
Proof.
  intros d'. subst d'.
  destruct session_id as [sid|]; [|left; by rewrite create_session_no_id].
  destruct (str_truthy sid) eqn:Hsid;
    [|left; by rewrite create_session_no_id].
  apply str_truthy_true in Hsid.
  destruct (exchange_session_id_cases emergent_auth sid d)
    as [[auth_data Hex]|[e Hex]];
    [|left; by rewrite (create_session_rejected _ _ _ _ _ e)].
  destruct (create_session_upsert emergent_auth now rng sid d auth_data
              Hsid Hex) as [[Hnil ->]|(u0 & rest & _ & ->)].
  - right. eexists. split; [done|].
    by apply select_users_by_email_nil.
  - left. simpl. apply refresh_profile_identity.
Qed.

Lemma call_users e now request d :
  user_identity <$> users (call e now request d).2
  = user_identity <$> users d.
Proof.
  pose proof (get_current_user_readonly now request d) as Hro.
  destruct (get_current_user now request d) as [[user|exn] d0] eqn:Hauth;
    simpl in Hro; subst d0.
  - destruct e;
      try (unfold call, observe, get_me, get_bots, create_bot, get_bot,
             update_bot, delete_bot, start_bot, stop_bot;
           st_unfold; rewrite Hauth; simpl; repeat case_match;
           by simplify_eq/=).
    unfold call, observe.
    rewrite (complete_onboarding_cases _ _ _ _ user Hauth).
    destruct (jsonb_accepts _); [|done]. simpl.
    apply update_where_fmap. intros u. done.
  - by rewrite (call_unauthenticated _ _ _ _ exn).
Qed.

Lemma logout_users request d : users (logout request d).2 = users d.
Proof.
  destruct (logout_sessions request d) as [->|[token ->]]; done.
Qed.

Lemma step_users emergent_auth d op :
  user_identity <$> users (step emergent_auth d op)
    = user_identity <$> users d ∨
  ∃ row, users (step emergent_auth d op) = (users d ++ [row])%list ∧
         ∀ u, u ∈ users d → User.email u ≠ User.email row.
Proof.
  destruct op as [now rng session_id|request|now request e]; simpl.
  - apply create_session_users.
  - left. by rewrite logout_users.
  - left. apply call_users.
Qed.

Lemma step_emails_unique emergent_auth d op :
  NoDup (User.email <$> users d) →
  NoDup (User.email <$> users (step emergent_auth d op)).
Proof.
  intros Hnd.
  assert (Hsnd : ∀ t : list User.row,
            User.email <$> t = snd <$> (user_identity <$> t)).
  { intros t. rewrite <- list_fmap_compose. done. }
  destruct (step_users emergent_auth d op) as [Hsame|(row & -> & Hfresh)].
  - by rewrite Hsnd, Hsame, <- Hsnd.
  - rewrite fmap_app. apply NoDup_app. split_and!; [done| |apply NoDup_singleton].
    intros e (u & He & Hu)%list_elem_of_fmap Hrow%list_elem_of_singleton.
    apply (Hfresh u Hu). congruence.
Qed.

Lemma step_users_prefix emergent_auth d op :
  (user_identity <$> users d)
    `prefix_of` (user_identity <$> users (step emergent_auth d op)).
Proof.
  destruct (step_users emergent_auth d op) as [->|(row & -> & _)]; [done|].
  rewrite fmap_app. by apply prefix_app_r.
Qed.

(** X7: emails stay unique.  Whatever requests are served, one after
    another, a store in which no two users share an email stays so; in
    particular every store reached from the empty one has unique emails. *)
Theorem emails_stay_unique emergent_auth ops :
  (∀ d, NoDup (User.email <$> users d) →
        NoDup (User.email <$> users (run emergent_auth ops d))) ∧
  NoDup (User.email <$> users (run emergent_auth ops empty_db)).
Proof.
  assert (Hrun : ∀ d, NoDup (User.email <$> users d) →
                      NoDup (User.email <$> users (run emergent_auth ops d))).
  { unfold run. induction ops as [|op ops IH]; intros d Hnd; [done|].
    simpl. by apply IH, step_emails_unique. }
  split; [done|]. apply Hrun. simpl. apply NoDup_nil_2.
Qed.

(** X8: no request deletes a user or changes a user's identifier or
    email: the (user_id, email) pairs of the store before a sequence of
    requests are a prefix of those after it. *)
Theorem users_are_never_removed emergent_auth ops d :
  (user_identity <$> users d)
    `prefix_of` (user_identity <$> users (run emergent_auth ops d)).
Proof.
  unfold run. revert d. induction ops as [|op ops IH]; intros d; [done|].
  simpl. etrans; [apply step_users_prefix|apply IH].
Qed.

(** ** Sign-in: expiry and the profile read back *)

(** X9: a session ends when its seven days are over.  From the moment
    [now + 7 days] on, a request carrying the token [create_session]
    returned (a token no other session holds) is answered 401 "Invalid or
    expired session".  The cookie set with the answer carries that token
    and has the same lifetime, in seconds. *)
Theorem session_expires_after_seven_days
    emergent_auth now rng session_id d auth_data :
  session_id ≠ "" →
  exchange_session_id emergent_auth session_id d = (Ok auth_data, d) →
  new_session_token rng ∉ Session.session_token <$> sessions d →
  ∃ created d',
    create_session emergent_auth now rng (Some session_id) d
      = (Ok created, d') ∧
    cookie_value (created_cookie created) = created_session_token created ∧
    cookie_max_age (created_cookie created) * 1000000 = timedelta_days 7 ∧
    ∀ later request,
      now + timedelta_days 7 ≤ later →
      get_session_token request = Some (created_session_token created) →
      get_current_user later request d' = (Raise invalid_session, d').
Proof.
  intros Hsid Hex Hfresh.
  destruct (create_session_issues emergent_auth now rng session_id d
              auth_data Hsid Hex)
    as (user & d1 & _ & _ & Hsess & _ & _ & Hcall).
  eexists _, _. split; [exact Hcall|]. split_and!; [done..|].
  intros later request Hlater Htoken.
  rewrite (get_current_user_token _ _ _ _ Htoken) by done.
  rewrite no_live_session_no_user; [done|].
  intros s Hs Htok. apply elem_of_issued_sessions in Hs as [[Hs _]| ->].
  - destruct Hfresh. simpl in Htok. rewrite <- Htok, <- Hsess.
    by apply list_elem_of_fmap_2.
  - simpl. lia.
Qed.

Lemma session_expires_after_seven_days_witness :
  get_current_user 604800000100 signed_in_request signed_in_db
  = (Raise invalid_session, signed_in_db).
Proof.
  destruct (session_expires_after_seven_days rejecting_exchange 100
              sample_uuids "test_session_id" empty_db test_auth_data)
    as (created & d' & Hcall & _ & _ & Hexpired).
  - discriminate.
  - reflexivity.
  - apply not_elem_of_nil.
  - injection Hcall as <- <-.
    apply (Hexpired 604800000100 signed_in_request); [|reflexivity].
    unfold timedelta_days. lia.
Defined.

(** X10: [get_me] reads back the profile [create_session] answered with.
    In a store where [user_id] is a key, with a generated user id and
    token that are new, a request carrying the returned token gets from
    [get_me], before the session expires, exactly the user of the sign-in
    answer, and [get_me] writes nothing. *)
Theorem get_me_after_sign_in emergent_auth now rng session_id d auth_data :
  session_id ≠ "" →
  exchange_session_id emergent_auth session_id d = (Ok auth_data, d) →
  NoDup (User.user_id <$> users d) →
  new_user_id rng ∉ User.user_id <$> users d →
  new_session_token rng ∉ Session.session_token <$> sessions d →
  ∃ created d',
    create_session emergent_auth now rng (Some session_id) d
      = (Ok created, d') ∧
    ∀ later request,
      later < now + timedelta_days 7 →
      get_session_token request = Some (created_session_token created) →
      get_me later request d' = (Ok (created_user created), d').
Proof.
  intros Hsid Hex Hpk Hnew Hfresh.
  destruct (create_session_issues emergent_auth now rng session_id d
              auth_data Hsid Hex)
    as (user & d1 & Huser & _ & Hsess & _ & Hids & Hcall).
  eexists _, _. split; [exact Hcall|].
  intros later request Hlater Htoken. unfold get_me. st_unfold.
  rewrite (get_current_user_token _ _ _ _ Htoken) by done.
  simpl. rewrite resolve_issued_session; try done.
  - destruct Hids as [->| ->]; [done|].
    apply NoDup_app. split_and!; [done| |apply NoDup_singleton].
    by intros x Hx ->%list_elem_of_singleton.
  - by rewrite Hsess.
Qed.

Lemma get_me_after_sign_in_witness :
  get_me 200 signed_in_request signed_in_db
  = (Ok (user_response test_user), signed_in_db).
Proof.
  destruct (get_me_after_sign_in rejecting_exchange 100 sample_uuids
              "test_session_id" empty_db test_auth_data)
    as (created & d' & Hcall & Hme).
  - discriminate.
  - reflexivity.
  - apply NoDup_nil_2.
  - apply not_elem_of_nil.
  - apply not_elem_of_nil.
  - injection Hcall as <- <-.
    apply (Hme 200 signed_in_request); [|reflexivity].
    unfold timedelta_days. lia.
Defined.

(** ** Bots across requests *)

Lemma get_current_user_cases now request d :
  (∃ user, get_current_user now request d = (Ok user, d)) ∨
  (get_current_user now request d = (Raise not_authenticated, d)) ∨
  (get_current_user now request d = (Raise invalid_session, d)).
Proof.
  destruct (get_session_token request) as [t|] eqn:Ht;
    [destruct (str_truthy t) eqn:Hs|].
  - apply str_truthy_true in Hs.
    rewrite (get_current_user_token _ _ _ _ Ht Hs).
    destruct (fetchone _); eauto.
  - right. left. apply get_current_user_no_token. by rewrite Ht.
  - right. left. apply get_current_user_no_token. by rewrite Ht.
Qed.

Lemma get_me_authenticated now request d user :
  get_current_user now request d = (Ok user, d) →
  get_me now request d = (Ok (user_response user), d).
Proof. intros Hauth. unfold get_me. st_unfold. by rewrite Hauth. Qed.

Lemma get_bots_authenticated now request d user :
  get_current_user now request d = (Ok user, d) →
  get_bots now request d
  = (Ok (select_bots_of_user (User.user_id user) d), d).
Proof. intros Hauth. unfold get_bots. st_unfold. by rewrite Hauth. Qed.

Lemma create_bot_authenticated now rng request bot_data d user :
  get_current_user now request d = (Ok user, d) →
  create_bot now rng request bot_data d
  = (Ok (new_bot_row now rng user bot_data),
     {| users := users d; sessions := sessions d;
        bots := bots d ++ [new_bot_row now rng user bot_data] |}).
Proof. intros Hauth. unfold create_bot. st_unfold. by rewrite Hauth. Qed.

(** The four things a protected call can do to [bots], for the caller
    [user]: nothing, append the caller's new row, rewrite the rows in one
    scope of the caller, or delete them. *)
Lemma call_bots e now request d user :
  get_current_user now request d = (Ok user, d) →
  let t' := bots (call e now request d).2 in
  (is_create_bot e = false ∧ t' = bots d) ∨
  (∃ rng bot_data,
     e = CreateBot rng bot_data ∧
     t' = (bots d ++ [new_bot_row now rng user bot_data])%list) ∨
  (∃ bot_id updates,
     endpoint_bot_id e = Some bot_id ∧
     t' = (update_where (bot_scope bot_id (User.user_id user))
             (fun b => foldl (assign now) b updates) (bots d)).2) ∨
  (∃ bot_id,
     e = DeleteBot bot_id ∧
     t' = filter (fun r => ¬ bot_scope bot_id (User.user_id user) r)
                 (bots d)).
Proof.
  intros Hauth t'. subst t'. destruct e; unfold call, observe.
  - left. by rewrite (get_me_authenticated _ _ _ user).
  - left. rewrite (complete_onboarding_cases _ _ _ _ user Hauth).
    by destruct (jsonb_accepts _).
  - left. by rewrite (get_bots_authenticated _ _ _ user).
  - right. left. rewrite (create_bot_authenticated _ _ _ _ _ user Hauth).
    by eexists _, _.
  - left. rewrite (get_bot_authenticated _ _ _ user Hauth).
    by destruct (fetchone _).
  - right. right. left.
    rewrite (update_bot_authenticated _ _ _ user Hauth). by eexists _, _.
  - right. right. right.
    rewrite (delete_bot_authenticated _ _ _ user Hauth). by eexists.
  - right. right. left.
    rewrite (start_bot_authenticated _ _ _ user Hauth). by eexists _, _.
  - right. right. left.
    rewrite (stop_bot_authenticated _ _ _ user Hauth). by eexists _, _.
Qed.

Lemma filter_update_where_out {A} (P Q : A → Prop)
    `{!∀ r, Decision (P r), !∀ r, Decision (Q r)} (f : A → A) (t : list A) :
  (∀ x, P x → ¬ Q x ∧ ¬ Q (f x)) →
  filter Q (update_where P f t).2 = filter Q t.
Proof.
  intros Hout. unfold update_where. simpl.
  induction t as [|r t IH]; [done|]. rewrite fmap_cons, !filter_cons, IH.
  destruct (decide (P r)) as [HP|HP]; [|done].
  destruct (Hout r HP). by rewrite !decide_False.
Qed.

(** X11: a request never touches the bots of anyone but its caller.  For
    every protected endpoint and every resolved caller, the rows of [bots]
    owned by other users are the same rows, in the same order, after the
    call as before; no key assumption is needed. *)
Theorem other_users_bots_untouched e now request d user :
  get_current_user now request d = (Ok user, d) →
  filter (fun b => Bot.user_id b ≠ User.user_id user)
         (bots (call e now request d).2)
  = filter (fun b => Bot.user_id b ≠ User.user_id user) (bots d).
Proof.
  intros Hauth.
  destruct (call_bots e now request d user Hauth)
    as [[_ ->]|[(rng & bot_data & _ & ->)|[(bot_id & updates & _ & ->)
       |(bot_id & _ & ->)]]].
  - done.
  - rewrite filter_app, filter_cons_False, filter_nil, app_nil_r; [done|].
    simpl. by intros [].
  - apply filter_update_where_out. intros b [_ Hu].
    destruct (foldl_assign_scope now updates b) as [_ Hu'].
    split; intros Hne; apply Hne; congruence.
  - apply list_filter_filter_l. intros b Hne [_ Hu]. done.
Qed.

Lemma other_users_bots_untouched_witness :
  filter (fun b => Bot.user_id b ≠ "user_1123456789ab")
    (bots (call (DeleteBot "bot_eeee456789ab") 500 bob_request two_user_db).2)
  = [sample_bot].
Proof.
  exact (other_users_bots_untouched (DeleteBot "bot_eeee456789ab") 500
           bob_request two_user_db bob eq_refl).
Defined.

Lemma foldl_assign_fixed now updates b :
  bot_fixed (foldl (assign now) b updates) = bot_fixed b.
Proof.
  revert b. induction updates as [|a updates IH]; intros b; simpl; [done|].
  rewrite IH. by destruct a.
Qed.

Lemma create_session_bots emergent_auth now rng session_id d :
  bots (create_session emergent_auth now rng session_id d).2 = bots d.
Proof.
  destruct session_id as [sid|]; [|by rewrite create_session_no_id].
  destruct (str_truthy sid) eqn:Hsid; [|by rewrite create_session_no_id].
  apply str_truthy_true in Hsid.
  destruct (exchange_session_id_cases emergent_auth sid d)
    as [[auth_data Hex]|[e Hex]];
    [|by rewrite (create_session_rejected _ _ _ _ _ e)].
  by destruct (create_session_upsert emergent_auth now rng sid d auth_data
                 Hsid Hex) as [[_ ->]|(u0 & rest & _ & ->)].
Qed.

Lemma logout_bots request d : bots (logout request d).2 = bots d.
Proof.
  destruct (logout_sessions request d) as [->|[token ->]]; done.
Qed.

(** Every row of [bots] after a protected call either has the fixed
    columns of a row that was there, or is the row this call inserted. *)
Lemma call_bots_origin e now request d r' :
  r' ∈ bots (call e now request d).2 →
  (∃ r, r ∈ bots d ∧ bot_fixed r' = bot_fixed r) ∨
  Bot.current_value r' = Bot.initial_investment r'.
Proof.
  destruct (get_current_user_cases now request d)
    as [[user Hauth]|[Hexn|Hexn]];
    [|rewrite (call_unauthenticated _ _ _ _ _ Hexn); left; by exists r'..].
  destruct (call_bots e now request d user Hauth)
    as [[_ ->]|[(rng & bot_data & _ & ->)|[(bot_id & updates & _ & ->)
       |(bot_id & _ & ->)]]].
  - left. by exists r'.
  - intros [Hr| ->%list_elem_of_singleton]%elem_of_app; [left; by exists r'|].
    by right.
  - unfold update_where. simpl. intros (r & -> & Hr)%list_elem_of_fmap.
    left. exists r. split; [done|].
    case_decide; [apply foldl_assign_fixed|done].
  - intros [_ Hr]%list_elem_of_filter. left. by exists r'.
Qed.

Lemma step_value_invariant emergent_auth d op :
  Forall (fun b => Bot.current_value b = Bot.initial_investment b) (bots d) →
  Forall (fun b => Bot.current_value b = Bot.initial_investment b)
         (bots (step emergent_auth d op)).
Proof.
  intros Hinv. destruct op as [now rng session_id|request|now request e].
  - simpl. by rewrite create_session_bots.
  - simpl. by rewrite logout_bots.
  - apply Forall_forall. intros r' Hr'.
    destruct (call_bots_origin e now request d r' Hr')
      as [(r & Hr & Hfixed)|Hnew]; [|done].
    rewrite Forall_forall in Hinv. specialize (Hinv r Hr).
    unfold bot_fixed in Hfixed. injection Hfixed as _ _ _ _ _ Hi Hc _ _.
    congruence.
Qed.

(** X12: no endpoint moves [current_value].  In every store reached from
    the empty one by serving requests, each bot still has [current_value]
    equal to its [initial_investment]; and serving requests keeps that true
    of any store of which it is true. *)
Theorem current_value_stays_initial emergent_auth ops :
  (∀ d, Forall (fun b => Bot.current_value b = Bot.initial_investment b)
               (bots d) →
        Forall (fun b => Bot.current_value b = Bot.initial_investment b)
               (bots (run emergent_auth ops d))) ∧
  Forall (fun b => Bot.current_value b = Bot.initial_investment b)
         (bots (run emergent_auth ops empty_db)).
Proof.
  assert (Hrun : ∀ d,
    Forall (fun b => Bot.current_value b = Bot.initial_investment b) (bots d) →
    Forall (fun b => Bot.current_value b = Bot.initial_investment b)
           (bots (run emergent_auth ops d))).
  { unfold run. induction ops as [|op ops IH]; intros d Hinv; [done|].
    simpl. by apply IH, step_value_invariant. }
  split; [done|]. apply Hrun. simpl. constructor.
Qed.

(** X13: the owner and the other fixed columns of a bot are immutable.
    An endpoint other than Create leaves in [bots] only rows that were
    there, in their order, each with its [bot_id], [user_id], [strategy],
    [trading_pair], [exchange], [initial_investment], [current_value],
    [is_virtual] and [created_at] as before; Create keeps every row as it
    is and adds at most one at the end. *)
Theorem bot_fixed_columns_immutable e now request d :
  (is_create_bot e = false →
   (bot_fixed <$> bots (call e now request d).2)
     `sublist_of` (bot_fixed <$> bots d)) ∧
  (is_create_bot e = true →
   bots (call e now request d).2 = bots d ∨
   ∃ row, bots (call e now request d).2 = (bots d ++ [row])%list).
Proof.
  destruct (get_current_user_cases now request d)
    as [[user Hauth]|[Hexn|Hexn]];
    [|rewrite (call_unauthenticated _ _ _ _ _ Hexn); split; eauto..].
  destruct (call_bots e now request d user Hauth)
    as [[He ->]|[(rng & bot_data & -> & ->)|[(bot_id & updates & He & ->)
       |(bot_id & -> & ->)]]].
  - split; [done|]. by left.
  - split; [done|]. intros _. right. by eexists.
  - split; [|by destruct e]. intros _.
    rewrite update_where_fmap; [done|]. intros b. apply foldl_assign_fixed.
  - split; [|done]. intros _. apply fmap_sublist, sublist_filter.
Qed.

Lemma bot_fixed_columns_immutable_witness :
  (bot_fixed <$> bots (call (StartBot "bot_eeee456789ab") 500
                            signed_in_request two_user_db).2)
    `sublist_of` (bot_fixed <$> bots two_user_db).
Proof.
  exact (proj1 (bot_fixed_columns_immutable (StartBot "bot_eeee456789ab") 500
                  signed_in_request two_user_db) eq_refl).
Defined.

(** ** Reading bots *)

Lemma created_at_desc_total : Total created_at_desc.
Proof. intros a b. unfold created_at_desc. lia. Qed.

Lemma created_at_desc_trans : Transitive created_at_desc.
Proof. intros a b c. unfold created_at_desc. lia. Qed.

(** X14: [get_bots] lists the caller's bots, all of them and no others,
    newest first: the list is a permutation of the rows of [bots] owned by
    the caller, every row in it was created no earlier than the rows after
    it, and the store is not written. *)
Theorem get_bots_lists_own_bots now request d user :
  get_current_user now request d = (Ok user, d) →
  ∃ listed,
    get_bots now request d = (Ok listed, d) ∧
    listed ≡ₚ filter (fun b => Bot.user_id b = User.user_id user) (bots d) ∧
    (∀ b, b ∈ listed ↔ b ∈ bots d ∧ Bot.user_id b = User.user_id user) ∧
    StronglySorted created_at_desc listed.
Proof.
  intros Hauth. eexists. split; [by apply get_bots_authenticated|].
  unfold select_bots_of_user.
  pose proof created_at_desc_total. pose proof created_at_desc_trans.
  split_and!.
  - apply merge_sort_Permutation.
  - intros b. rewrite merge_sort_Permutation, list_elem_of_filter. tauto.
  - by apply StronglySorted_merge_sort.
Qed.

Lemma get_bots_lists_own_bots_witness :
  ∃ listed,
    get_bots 500 bob_request two_user_db = (Ok listed, two_user_db) ∧
    ∀ b, b ∈ listed ↔ b ∈ bots two_user_db ∧
                       Bot.user_id b = "user_1123456789ab".
Proof.
  destruct (get_bots_lists_own_bots 500 bob_request two_user_db bob eq_refl)
    as (listed & Hcall & _ & Hin & _).
  by exists listed.
Defined.

(** X15: the endpoints that read never write: [get_me], [get_bots] and
    [get_bot] return the store they were given, whatever the request. *)
Theorem read_endpoints_never_write e now request d :
  read_only e = true → (call e now request d).2 = d.
Proof.
  intros He.
  destruct (get_current_user_cases now request d)
    as [[user Hauth]|[Hexn|Hexn]];
    [|by rewrite (call_unauthenticated _ _ _ _ _ Hexn)..].
  destruct e; try done; unfold call, observe; simpl.
  - by rewrite (get_me_authenticated _ _ _ user).
  - by rewrite (get_bots_authenticated _ _ _ user).
  - rewrite (get_bot_authenticated _ _ _ user Hauth). by destruct (fetchone _).
Qed.

Lemma read_endpoints_never_write_witness :
  (call (GetBot "bot_eeee456789ab") 500 signed_in_request two_user_db).2
  = two_user_db.
Proof.
  exact (read_endpoints_never_write (GetBot "bot_eeee456789ab") 500
           signed_in_request two_user_db eq_refl).
Defined.

(** X16: [get_bot] returns the caller's bot.  With [bot_id] a key of
    [bots], Get on the identifier of a bot the caller owns answers with
    exactly that row. *)
Theorem get_bot_returns_owned now request d user b :
  NoDup (Bot.bot_id <$> bots d) →
  b ∈ bots d →
  get_current_user now request d = (Ok user, d) →
  Bot.user_id b = User.user_id user →
  get_bot now request (Bot.bot_id b) d = (Ok b, d).
Proof.
  intros Hpk Hb Hauth Hown.
  rewrite (get_bot_authenticated _ _ _ user Hauth), <- Hown.
  by rewrite select_bot_owned.
Qed.

Lemma get_bot_returns_owned_witness :
  get_bot 500 signed_in_request "bot_eeee456789ab" two_user_db
  = (Ok sample_bot, two_user_db).
Proof.
  apply (get_bot_returns_owned 500 signed_in_request two_user_db test_user
           sample_bot).
  - apply NoDup_singleton.
  - by left.
  - reflexivity.
  - reflexivity.
Defined.

(** ** Create, update and delete, read back *)

(** X17: a created bot can be read back.  When the generated identifier
    is carried by no bot yet, Get on the identifier Create returned
    answers, for the same caller, with the very row Create returned, and
    [get_bots] lists it. *)
Theorem create_then_get now later rng request bot_data d user :
  get_current_user now request d = (Ok user, d) →
  get_current_user later request d = (Ok user, d) →
  new_bot_id rng ∉ Bot.bot_id <$> bots d →
  ∃ bot d' listed,
    create_bot now rng request bot_data d = (Ok bot, d') ∧
    get_bot later request (Bot.bot_id bot) d' = (Ok bot, d') ∧
    get_bots later request d' = (Ok listed, d') ∧ bot ∈ listed.
Proof.
  intros Hnow Hlater Hfresh.
  rewrite (create_bot_authenticated _ _ _ _ _ user Hnow).
  set (bot := new_bot_row now rng user bot_data).
  set (d' := {| users := users d; sessions := sessions d;
                bots := bots d ++ [bot] |}).
  assert (Hlater' : get_current_user later request d' = (Ok user, d'))
    by (by apply (get_current_user_transfer _ _ d)).
  eexists bot, d', _. split; [done|].
  rewrite (get_bot_authenticated _ _ _ user Hlater').
  rewrite (get_bots_authenticated _ _ _ user Hlater').
  split_and!; [|done|].
  - unfold select_bot. simpl. rewrite filter_app.
    rewrite (filter_none _ (bots d)).
    + rewrite filter_cons_True by done. done.
    + intros r Hr [Hid _]. apply Hfresh. simpl in Hid. rewrite <- Hid.
      by apply list_elem_of_fmap_2.
  - unfold select_bots_of_user. rewrite merge_sort_Permutation.
    apply list_elem_of_filter. split; [done|].
    simpl. apply elem_of_app. right. by left.
Qed.

Lemma create_then_get_witness :
  ∃ bot d',
    create_bot 300 {| hex := "eeee456789abcdef0123456789abcdef" |}
               signed_in_request sample_bot_create signed_in_db
      = (Ok bot, d') ∧
    get_bot 400 signed_in_request (Bot.bot_id bot) d' = (Ok bot, d').
Proof.
  destruct (create_then_get 300 400
              {| hex := "eeee456789abcdef0123456789abcdef" |}
              signed_in_request sample_bot_create signed_in_db test_user)
    as (bot & d' & listed & Hcreate & Hget & _).
  - reflexivity.
  - reflexivity.
  - apply not_elem_of_nil.
  - by exists bot, d'.
Defined.

(** X18: what Delete leaves.  For a resolved caller, Delete removes
    exactly the rows with that identifier and that owner and keeps every
    other row; it answers 404 "Bot not found" precisely when there was no
    such row; and afterwards both Get and a second Delete on the identifier
    answer 404, the second Delete changing nothing. *)
Theorem delete_bot_removes now later request bot_id d user :
  get_current_user now request d = (Ok user, d) →
  get_current_user later request d = (Ok user, d) →
  let out := delete_bot now request bot_id d in
  out.2 = {| users := users d; sessions := sessions d;
             bots := filter (fun r => ¬ bot_scope bot_id (User.user_id user) r)
                            (bots d) |} ∧
  (out.1 = Raise bot_not_found ↔ select_bot bot_id (User.user_id user) d = []) ∧
  (out.1 = Ok bot_deleted ↔ select_bot bot_id (User.user_id user) d ≠ []) ∧
  get_bot later request bot_id out.2 = (Raise bot_not_found, out.2) ∧
  delete_bot later request bot_id out.2 = (Raise bot_not_found, out.2).
Proof.
  intros Hnow Hlater out. subst out.
  rewrite (delete_bot_authenticated _ _ _ user Hnow).
  unfold delete_bot_row, delete_where. simpl.
  fold (select_bot bot_id (User.user_id user) d).
  set (d' := {| users := users d; sessions := sessions d;
                bots := filter _ (bots d) |}).
  assert (Hlater' : get_current_user later request d' = (Ok user, d'))
    by (by apply (get_current_user_transfer _ _ d)).
  assert (Hgone : select_bot bot_id (User.user_id user) d' = []).
  { apply filter_none. intros r [Hr _]%list_elem_of_filter. done. }
  split_and!; [done| | | |].
  - by destruct (select_bot bot_id (User.user_id user) d).
  - by destruct (select_bot bot_id (User.user_id user) d).
  - by rewrite (get_bot_authenticated _ _ _ user Hlater'), Hgone.
  - rewrite (delete_bot_authenticated _ _ _ user Hlater').
    by rewrite (delete_bot_row_none d' user).
Qed.

Lemma delete_bot_removes_witness :
  get_bot 600 signed_in_request "bot_eeee456789ab"
    (delete_bot 500 signed_in_request "bot_eeee456789ab" two_user_db).2
  = (Raise bot_not_found,
     (delete_bot 500 signed_in_request "bot_eeee456789ab" two_user_db).2).
Proof.
  destruct (delete_bot_removes 500 600 signed_in_request "bot_eeee456789ab"
              two_user_db test_user eq_refl eq_refl)
    as (_ & _ & _ & Hget & _).
  exact Hget.
Defined.

(** X19: an updated bot reads back as updated.  With [bot_id] a key,
    Get on a bot of the caller after an Update of it answers with the row
    the Update returned. *)
Theorem update_then_get now later request d user b bot_data :
  NoDup (Bot.bot_id <$> bots d) →
  b ∈ bots d →
  get_current_user now request d = (Ok user, d) →
  get_current_user later request d = (Ok user, d) →
  Bot.user_id b = User.user_id user →
  ∃ b' d',
    update_bot now request (Bot.bot_id b) bot_data d = (Ok b', d') ∧
    get_bot later request (Bot.bot_id b) d' = (Ok b', d').
Proof.
  intros Hpk Hb Hnow Hlater Hown.
  rewrite (update_bot_authenticated _ _ _ user Hnow), <- Hown.
  rewrite update_bot_row_owned by done. simpl.
  set (b' := foldl _ _ _).
  destruct (foldl_assign_scope now (build_updates bot_data) b) as [Hid Hu].
  destruct (select_bot_replaced d b b' Hpk Hb Hid) as (_ & _ & Hsel).
  eexists b', _. split; [done|].
  erewrite get_bot_authenticated;
    [|by apply (get_current_user_transfer _ _ d)].
  rewrite <- Hown, <- Hu. fold b'. by rewrite Hsel.
Qed.

Lemma update_then_get_witness :
  ∃ b' d',
    update_bot 500 signed_in_request "bot_eeee456789ab"
               (status_only "paused") two_user_db = (Ok b', d') ∧
    get_bot 600 signed_in_request "bot_eeee456789ab" d' = (Ok b', d').
Proof.
  apply (update_then_get 500 600 signed_in_request two_user_db test_user
           sample_bot (status_only "paused")).
  - apply NoDup_singleton.
  - by left.
  - reflexivity.
  - reflexivity.
  - reflexivity.
Defined.

(** X20: Start and Stop are Update with only a status.  For every
    request and store, [start_bot] does and answers what [update_bot] does
    with the partial [{status: "running"}], and [stop_bot] what it does
    with [{status: "stopped"}]. *)
Theorem start_stop_are_status_updates now request bot_id d :
  start_bot now request bot_id d
    = update_bot now request bot_id (status_only "running") d ∧
  stop_bot now request bot_id d
    = update_bot now request bot_id (status_only "stopped") d.
Proof. split; reflexivity. Qed.

(** ** Failures *)

Lemma exchange_session_id_raise emergent_auth session_id d e :
  exchange_session_id emergent_auth session_id d = (Raise e, d) →
  e = invalid_session_id ∨ e = internal_server_error.
Proof.
  unfold exchange_session_id. case_bool_decide; [done|].
  destruct (emergent_auth session_id); [|intros [= <-]; by right].
  destruct (negb _); [|done]. intros [= <-]. by left.
Qed.

Lemma create_session_failure emergent_auth now rng session_id d exn :
  (create_session emergent_auth now rng session_id d).1 = Raise exn →
  (create_session emergent_auth now rng session_id d).2 = d ∧
  (exn = session_id_required ∨ exn = invalid_session_id ∨
   exn = internal_server_error).
Proof.
  destruct session_id as [sid|];
    [|rewrite create_session_no_id by done; intros [= <-]; eauto].
  destruct (str_truthy sid) eqn:Hsid;
    [|rewrite create_session_no_id by done; intros [= <-]; eauto].
  apply str_truthy_true in Hsid.
  destruct (exchange_session_id_cases emergent_auth sid d)
    as [[auth_data Hex]|[e Hex]].
  - by destruct (create_session_upsert emergent_auth now rng sid d auth_data
                   Hsid Hex) as [[_ ->]|(u0 & rest & _ & ->)].
  - rewrite (create_session_rejected _ _ _ _ _ e) by done.
    intros [= <-]. split; [done|]. right.
    by eapply exchange_session_id_raise.
Qed.

Lemma update_bot_row_miss now updates bot_id user_id d :
  fetchone (update_bot_row now updates bot_id user_id d).1 = None →
  (update_bot_row now updates bot_id user_id d).2 = d.
Proof.
  unfold update_bot_row, update_where. simpl.
  intros Hnone%fetchone_None%fmap_nil_inv.
  pose proof (update_where_none (bot_scope bot_id user_id)
                (fun b => foldl (assign now) b updates) (bots d) Hnone) as Hu.
  unfold update_where in Hu. injection Hu as _ ->. apply db_eta.
Qed.

Lemma delete_bot_row_miss bot_id user_id d :
  fetchone (delete_bot_row bot_id user_id d).1 = None →
  (delete_bot_row bot_id user_id d).2 = d.
Proof.
  unfold delete_bot_row, delete_where. simpl.
  intros Hnone%fetchone_None%fmap_nil_inv.
  pose proof (delete_where_none (bot_scope bot_id user_id) (bots d) Hnone)
    as Hd.
  unfold delete_where in Hd. injection Hd as _ ->. apply db_eta.
Qed.



Lemma call_failure e now request d exn :
  (call e now request d).1 = Some exn →
  (call e now request d).2 = d.
Proof.
  destruct (get_current_user_cases now request d)
    as [[user Hauth]|[Hexn|Hexn]];
    [|by rewrite (call_unauthenticated _ _ _ _ _ Hexn)..].
  destruct e; unfold call, observe; simpl.
  - by rewrite (get_me_authenticated _ _ _ user).
  - rewrite (complete_onboarding_cases _ _ _ _ user Hauth).
    by destruct (jsonb_accepts _).
  - by rewrite (get_bots_authenticated _ _ _ user).
  - by rewrite (create_bot_authenticated _ _ _ _ _ user).
  - rewrite (get_bot_authenticated _ _ _ user Hauth).
    by destruct (fetchone _).
  - rewrite (update_bot_authenticated _ _ _ user Hauth). cbv zeta. cbn [fst snd].
    destruct (fetchone _) eqn:Hrow; [done|]. intros _.
    by apply update_bot_row_miss.
  - rewrite (delete_bot_authenticated _ _ _ user Hauth). cbv zeta. cbn [fst snd].
    destruct (fetchone _) eqn:Hrow; [done|]. intros _.
    by apply delete_bot_row_miss.
  - rewrite (start_bot_authenticated _ _ _ user Hauth). cbv zeta. cbn [fst snd].
    destruct (fetchone _) eqn:Hrow; [done|]. intros _.
    by apply update_bot_row_miss.
  - rewrite (stop_bot_authenticated _ _ _ user Hauth). cbv zeta. cbn [fst snd].
    destruct (fetchone _) eqn:Hrow; [done|]. intros _.
    by apply update_bot_row_miss.
Qed.



(** X22: a handler that raises has written nothing.  Whenever a protected
    handler or [create_session] raises, be it one of its own
    [HTTPException]s or the server error of an exchange that does not
    answer or of a payload the store rejects, the store after the request
    is the store before it. *)
Theorem failed_requests_write_nothing :
  (∀ e now request d exn,
     (call e now request d).1 = Some exn → (call e now request d).2 = d) ∧
  (∀ emergent_auth now rng session_id d exn,
     (create_session emergent_auth now rng session_id d).1 = Raise exn →
     (create_session emergent_auth now rng session_id d).2 = d).
Proof.
  split.
  - intros e now request d exn Hfail.
    by apply (call_failure e now request d exn Hfail).
  - intros emergent_auth now rng session_id d exn Hfail.
    by destruct (create_session_failure emergent_auth now rng session_id d
                   exn Hfail).
Qed.

Lemma failed_requests_write_nothing_witness :
  (call (CompleteOnboarding overflowing_onboarding) 500 bob_request
        two_user_db).2 = two_user_db ∧
  (create_session unreachable_exchange 500 sample_uuids (Some "abc")
                  two_user_db).2 = two_user_db.
Proof.
  destruct failed_requests_write_nothing as [Hcall Hsession].
  split.
  - by apply (Hcall _ _ _ _ internal_server_error).
  - by apply (Hsession _ _ _ _ _ internal_server_error).
Defined.

(** ** Keys *)

Lemma sessions_after_issue now rng user t d :
  sessions (issue_session now rng user t d)
  = (filter (fun s => Session.user_id s ≠ User.user_id user) (sessions d) ++
     [{| Session.session_id := uuid_str (uuid_session rng);
         Session.user_id := User.user_id user;
         Session.session_token := new_session_token rng;
         Session.expires_at := now + timedelta_days 7 |}])%list.
Proof. done. Qed.

Lemma NoDup_fmap_snoc {A B} (f : A → B) (l k : list A) (x : A) :
  NoDup (f <$> l) → k `sublist_of` l → f x ∉ f <$> l →
  NoDup (f <$> (k ++ [x])%list).
Proof.
  intros Hnd Hsub Hx. rewrite fmap_app. apply NoDup_app. split_and!.
  - eapply sublist_NoDup; [done|]. by apply fmap_sublist.
  - intros y Hy ->%list_elem_of_singleton. apply Hx.
    eapply sublist_subseteq; [|done]. by apply fmap_sublist.
  - apply NoDup_singleton.
Qed.

(** What [create_session] does to the keys of [users] and to the tokens
    of [sessions]. *)
Lemma create_session_keys emergent_auth now rng session_id d :
  NoDup (User.user_id <$> users d) →
  NoDup (Session.session_token <$> sessions d) →
  new_user_id rng ∉ User.user_id <$> users d →
  new_session_token rng ∉ Session.session_token <$> sessions d →
  let d' := (create_session emergent_auth now rng session_id d).2 in
  NoDup (User.user_id <$> users d') ∧
  NoDup (Session.session_token <$> sessions d').
Proof.
  intros Hu Ht Hnew Hfresh d'. subst d'.
  destruct session_id as [sid|]; [|by rewrite create_session_no_id].
  destruct (str_truthy sid) eqn:Hsid; [|by rewrite create_session_no_id].
  apply str_truthy_true in Hsid.
  destruct (exchange_session_id_cases emergent_auth sid d)
    as [[auth_data Hex]|[e Hex]];
    [|by rewrite (create_session_rejected _ _ _ _ _ e)].
  destruct (create_session_upsert emergent_auth now rng sid d auth_data
              Hsid Hex) as [[_ ->]|(u0 & rest & _ & ->)];
    cbn [snd]; rewrite sessions_after_issue; (split;
      [|by apply (NoDup_fmap_snoc _ (sessions d));
           [|apply sublist_filter|]]).
  - by apply (NoDup_fmap_snoc _ (users d)).
  - simpl. unfold refresh_profile. rewrite <- list_fmap_compose.
    erewrite list_fmap_ext; [exact Hu|]. intros i u _. simpl. by case_decide.
Qed.

(** X23: the keys stay keys.  If no two users share a [user_id], no two
    bots a [bot_id] and no two sessions a token, then the same holds after
    any one request, provided the identifiers the request generates (the
    user id and token of a sign-in, the bot id of a Create) are not in use
    yet. *)
Theorem keys_stay_unique emergent_auth d op :
  NoDup (User.user_id <$> users d) →
  NoDup (Bot.bot_id <$> bots d) →
  NoDup (Session.session_token <$> sessions d) →
  (∀ now rng session_id,
     op = CreateSession now rng session_id →
     (new_user_id rng ∉ User.user_id <$> users d) ∧
     (new_session_token rng ∉ Session.session_token <$> sessions d)) →
  (∀ now request rng bot_data,
     op = Protected now request (CreateBot rng bot_data) →
     new_bot_id rng ∉ Bot.bot_id <$> bots d) →
  NoDup (User.user_id <$> users (step emergent_auth d op)) ∧
  NoDup (Bot.bot_id <$> bots (step emergent_auth d op)) ∧
  NoDup (Session.session_token <$> sessions (step emergent_auth d op)).
Proof.
  intros Hu Hb Ht Hsign Hcreate.
  destruct op as [now rng session_id|request|now request e]; simpl.
  - destruct (Hsign now rng session_id eq_refl) as [Hnew Hfresh].
    destruct (create_session_keys emergent_auth now rng session_id d
                Hu Ht Hnew Hfresh) as [Hu' Ht'].
    by rewrite create_session_bots.
  - rewrite logout_users, logout_bots. split_and!; [done..|].
    destruct (logout_sessions request d) as [->|[token ->]]; [done|].
    eapply sublist_NoDup; [exact Ht|].
    apply fmap_sublist, sublist_filter.
  - rewrite call_sessions. split_and!; [|  |done].
    + assert (Hid : ∀ t : list User.row,
                User.user_id <$> t = fst <$> (user_identity <$> t))
        by (intros t; by rewrite <- list_fmap_compose).
      by rewrite Hid, call_users, <- Hid.
    + destruct (get_current_user_cases now request d)
        as [[user Hauth]|[Hexn|Hexn]];
        [|by rewrite (call_unauthenticated _ _ _ _ _ Hexn)..].
      destruct (call_bots e now request d user Hauth)
        as [[_ ->]|[(rng & bot_data & -> & ->)|[(bot_id & updates & _ & ->)
           |(bot_id & _ & ->)]]].
      * done.
      * apply (NoDup_fmap_snoc _ (bots d)); [done..|].
        by apply (Hcreate now request rng bot_data).
      * rewrite update_where_fmap; [done|]. intros b.
        apply foldl_assign_scope.
      * eapply sublist_NoDup; [exact Hb|].
        apply fmap_sublist, sublist_filter.
Qed.

Lemma keys_stay_unique_witness :
  NoDup (Bot.bot_id <$> bots
           (step rejecting_exchange signed_in_db
              (Protected 300 signed_in_request
                 (CreateBot {| hex := "eeee456789abcdef0123456789abcdef" |}
                            sample_bot_create)))).
Proof.
  refine (proj1 (proj2 (keys_stay_unique rejecting_exchange signed_in_db
                          (Protected 300 signed_in_request
                             (CreateBot
                                {| hex := "eeee456789abcdef0123456789abcdef" |}
                                sample_bot_create)) _ _ _ _ _))).
  - apply NoDup_singleton.
  - apply NoDup_nil_2.
  - apply NoDup_singleton.
  - intros now rng session_id Hop. discriminate Hop.
  - intros now request rng bot_data Hop. apply not_elem_of_nil.
Defined.

(** ** The bearer token *)

Lemma split_fields_first sep s :
  (sep ∉ list_ascii_of_string (split_fields sep s).1) ∧
  (s = (split_fields sep s).1 ∨
   ∃ tail, s = (split_fields sep s).1 +:+ String sep tail).
Proof.
  induction s as [|c s [IHno IHs]]; simpl.
  - split; [apply not_elem_of_nil|by left].
  - destruct (split_fields sep s) as [w ws]. simpl in *.
    destruct (Ascii.eqb_spec c sep) as [->|Hc]; simpl.
    + split; [apply not_elem_of_nil|]. right. by exists s.
    + split.
      * intros [?|?]%elem_of_cons; [congruence|done].
      * destruct IHs as [->|[tail ->]]; [by left|].
        right. by exists tail.
Qed.

(** X24: the token of an Authorization header.  When the cookie is
    absent or empty and a token comes out of the request, the header value
    is "Bearer " followed by some text, and the token is that text up to
    its first space, or all of it when it has none; the token holds no
    space. *)
Theorem bearer_token_is_first_field request token :
  opt_str_truthy (cookies request !! "session_token") = false →
  get_session_token request = Some token →
  ∃ rest,
    headers request !! "Authorization" = Some ("Bearer " +:+ rest) ∧
    (" "%char ∉ list_ascii_of_string token) ∧
    (rest = token ∨ ∃ tail, rest = token +:+ String " " tail).
Proof.
  intros Hc. rewrite (get_session_token_header _ Hc).
  destruct (headers request !! "Authorization") as [h|]; [|done].
  destruct (startswith "Bearer " h) eqn:Hprefix; [|done].
  apply startswith_inv in Hprefix as [rest ->].
  rewrite split_bearer. intros [= <-]. exists rest. split; [done|].
  apply split_fields_first.
Qed.

Lemma bearer_token_is_first_field_witness :
  ∃ rest,
    headers empty_cookie_request !! "Authorization"
      = Some ("Bearer " +:+ rest) ∧
    (" "%char ∉ list_ascii_of_string "abc") ∧
    (rest = "abc" ∨ ∃ tail, rest = "abc" +:+ String " " tail).
Proof.
  apply (bearer_token_is_first_field empty_cookie_request "abc");
    reflexivity.
Defined.

(** ** Onboarding, once more *)

Lemma complete_user_idemp payload u :
  complete_user payload (complete_user payload u) = complete_user payload u.
Proof.
  unfold complete_user, jsonb_concat. simpl. f_equal.
  by rewrite (assoc_L (∪)), (idemp_L (∪)).
Qed.

Lemma update_user_onboarding_idemp payload user_id d :
  update_user_onboarding payload user_id
    (update_user_onboarding payload user_id d)
  = update_user_onboarding payload user_id d.
Proof.
  unfold update_user_onboarding, update_where. simpl. f_equal.
  rewrite <- list_fmap_compose. apply list_fmap_ext. intros i u _. simpl.
  destruct (decide (User.user_id u = user_id)) as [Hu|Hu]; simpl.
  - rewrite decide_True by done. apply complete_user_idemp.
  - by rewrite decide_False.
Qed.

(** X25: what CompleteOnboarding leaves alone, and its edge cases.  For a
    resolved caller it writes neither [sessions] nor [bots] nor the row of
    any other user; a body without "data" does what a body with an empty
    object as "data" does; and repeating the same request is answered as
    the first one was, a success or the server error of a rejected
    payload, and changes nothing more. *)
Theorem complete_onboarding_frame now request body d user :
  get_current_user now request d = (Ok user, d) →
  let d' := (complete_onboarding now request body d).2 in
  sessions d' = sessions d ∧ bots d' = bots d ∧
  (∀ u, User.user_id u ≠ User.user_id user → u ∈ users d' ↔ u ∈ users d) ∧
  (body !! "data" = None →
   complete_onboarding now request body d
   = complete_onboarding now request (<["data" := JObject ∅]> body) d) ∧
  complete_onboarding now request body d'
  = ((complete_onboarding now request body d).1, d').
Proof.
  intros Hauth d'. subst d'.
  assert (Hmissing : body !! "data" = None →
            complete_onboarding now request body d
            = complete_onboarding now request (<["data" := JObject ∅]> body) d).
  { intros Hno. rewrite !(complete_onboarding_cases _ _ _ _ user Hauth).
    unfold onboarding_payload. by rewrite Hno, lookup_insert_eq. }
  rewrite (complete_onboarding_cases _ _ _ _ user Hauth) in *.
  destruct (jsonb_accepts _) eqn:Hok; simpl.
  - split_and!; [done..| |done|].
    + intros u Hu. unfold update_where. simpl. rewrite list_elem_of_fmap.
      split.
      * intros (u0 & -> & Hu0). by case_decide.
      * intros Hin. exists u. by rewrite decide_False.
    + pose proof (get_current_user_after_onboarding now request d user
        (onboarding_payload body) Hauth) as Hauth'.
      rewrite (complete_onboarding_cases _ _ _ _ _ Hauth'), Hok. simpl.
      by rewrite update_user_onboarding_idemp.
  - split_and!; [done..|].
    by rewrite (complete_onboarding_cases _ _ _ _ user Hauth), Hok.
Qed.

Lemma complete_onboarding_frame_witness :
  complete_onboarding 500 signed_in_request ∅ themed_db
  = complete_onboarding 500 signed_in_request
      {[ "data" := JObject ∅ ]} themed_db.
Proof.
  destruct (complete_onboarding_frame 500 signed_in_request ∅ themed_db
              themed_user eq_refl) as (_ & _ & _ & Hmissing & _).
  exact (Hmissing eq_refl).
Defined.

(** ** Mock prices *)

Lemma py_slice_to_length {A} (stop : Z) (l : list A) :
  Z.of_nat (length (py_slice_to stop l))
  = if stop <? 0 then Z.max 0 (Z.of_nat (length l) + stop)
    else Z.min stop (Z.of_nat (length l)).
Proof.
  unfold py_slice_to. destruct (Z.ltb_spec stop 0); rewrite length_take; lia.
Qed.

(** X26: [get_crypto_prices] answers with the first entries of the price
    table, never more than its ten: [limit] of them when [limit] is
    between 0 and 10, all ten when it is larger or absent, and for a
    negative [limit] the table without its last [-limit] entries (nine
    entries for -1, none from -10 down); no [limit] is rejected. *)
Theorem get_crypto_prices_limit isoformat limit now :
  let answer := get_crypto_prices isoformat limit now in
  prices_data answer `prefix_of` mock_data ∧
  prices_timestamp answer = isoformat now ∧
  Z.of_nat (length (prices_data answer))
  = match limit with
    | None => 10
    | Some n => if n <? 0 then Z.max 0 (10 + n) else Z.min n 10
    end.
Proof.
  unfold get_crypto_prices. simpl. split_and!; [|done|].
  - unfold py_slice_to. case_match; apply prefix_take.
  - rewrite py_slice_to_length. by destruct limit.
Qed.

(** ** Other users' sessions across a sign-in *)

(** The first row of a join is the first row of the outer table that has
    a partner. *)
Lemma head_bind_first {A} (g : A → list A) (l : list A) u :
  (∀ v x, x ∈ g v → x = v) →
  head (l ≫= g) = Some u ↔
  ∃ l1 l2, l = (l1 ++ u :: l2)%list ∧ g u ≠ [] ∧ ∀ v, v ∈ l1 → g v = [].
Proof.
  intros Hg. induction l as [|v l IH].
  - split; [done|]. intros (l1 & l2 & Hl & _). by destruct l1.
  - rewrite bind_cons. destruct (g v) as [|x k] eqn:Hv; simpl.
    + rewrite IH. split.
      * intros (l1 & l2 & -> & Hu & Hl1). exists (v :: l1), l2.
        split_and!; [done..|].
        intros w [->|Hw]%elem_of_cons; [done|by apply Hl1].
      * intros (l1 & l2 & Hl & Hu & Hl1). destruct l1 as [|w l1].
        -- simpl in Hl. injection Hl as -> ->. congruence.
        -- simpl in Hl. injection Hl as -> ->. exists l1, l2.
           split_and!; [done..|]. intros z Hz. apply Hl1. by right.
    + assert (x = v) as -> by (apply Hg; rewrite Hv; by left). split.
      * intros [= ->]. exists [], l. split_and!; [done|congruence|].
        by intros w ?%elem_of_nil.
      * intros (l1 & l2 & Hl & Hu & Hl1). destruct l1 as [|w l1].
        -- simpl in Hl. by injection Hl as -> _.
        -- simpl in Hl. injection Hl as -> _.
           rewrite (Hl1 w) in Hv; [done|by left].
Qed.

Lemma create_session_success emergent_auth now rng session_id d created d' :
  create_session emergent_auth now rng session_id d = (Ok created, d') →
  ∃ user t (f : User.row → User.row) extra,
    created = session_created user (new_session_token rng) ∧
    d' = issue_session now rng user t d ∧
    t = ((f <$> users d) ++ extra)%list ∧
    ∀ u, f u = u ∨
         ∃ name picture, f u = set_name_picture name picture u.
Proof.
  destruct session_id as [sid|]; [|by rewrite create_session_no_id].
  destruct (str_truthy sid) eqn:Hsid; [|by rewrite create_session_no_id].
  apply str_truthy_true in Hsid.
  destruct (exchange_session_id_cases emergent_auth sid d)
    as [[auth_data Hex]|[e Hex]];
    [|by rewrite (create_session_rejected _ _ _ _ _ e)].
  destruct (create_session_upsert emergent_auth now rng sid d auth_data
              Hsid Hex) as [[_ ->]|(u0 & rest & _ & ->)]; intros [= <- <-].
  - eexists (new_user_row rng auth_data), _, id, [new_user_row rng auth_data].
    split_and!; [done|done|by rewrite list_fmap_id|]. intros u. by left.
  - eexists _, _, _, []. split_and!; [done|done|by rewrite app_nil_r|].
    intros u. simpl. case_decide; [right; by eexists _, _|by left].
Qed.

(** X27: signing in does not sign anyone else out.  If a request resolved
    to a user before a successful [create_session] of somebody else, and
    does not carry the token just issued, it resolves after it too, at the
    same time, to the same user: same [user_id], [email],
    [onboarding_completed] and [settings]. *)
Theorem sign_in_keeps_other_sessions
    emergent_auth now rng session_id d created d' later request other :
  create_session emergent_auth now rng session_id d = (Ok created, d') →
  get_current_user later request d = (Ok other, d) →
  User.user_id other ≠ UserResponse.user_id (created_user created) →
  get_session_token request ≠ Some (created_session_token created) →
  ∃ other',
    get_current_user later request d' = (Ok other', d') ∧
    User.user_id other' = User.user_id other ∧
    User.email other' = User.email other ∧
    User.onboarding_completed other' = User.onboarding_completed other ∧
    User.settings other' = User.settings other.
Proof.
  intros Hcall Hauth Hne Htok.
  destruct (create_session_success _ _ _ _ _ _ _ Hcall)
    as (user & t & f & extra & -> & -> & -> & Hf).
  simpl in Hne, Htok.
  assert (Hfid : ∀ u, User.user_id (f u) = User.user_id u)
    by (intros u; by destruct (Hf u) as [->|(? & ? & ->)]).
  destruct (get_session_token request) as [token|] eqn:Ht;
    [destruct (str_truthy token) eqn:Hs|];
    [|rewrite get_current_user_no_token in Hauth; [done|by rewrite Ht]..].
  apply str_truthy_true in Hs.
  rewrite (get_current_user_token _ _ _ _ Ht Hs) in Hauth.
  destruct (fetchone _) as [u|] eqn:Hhead in Hauth; [|done].
  injection Hauth as ->.
  assert (Hinner : ∀ (ss : list Session.row) (v x : User.row),
    x ∈ (ss ≫= λ s,
           if bool_decide (User.user_id v = Session.user_id s)
              && bool_decide (Session.session_token s = token)
              && bool_decide (later < Session.expires_at s)
           then [v] else []) → x = v).
  { intros ss v x (s & Hx & _)%list_elem_of_bind.
    destruct (_ && _ && _); [|by apply elem_of_nil in Hx].
    by apply list_elem_of_singleton in Hx. }
  unfold fetchone, select_user_by_session in Hhead.
  apply head_bind_first in Hhead as (l1 & l2 & Hl & Hlive & Hdead);
    [|apply Hinner].
  exists (f other). split.
  - rewrite (get_current_user_token _ _ _ _ Ht Hs).
    assert (Hhead' : fetchone (select_user_by_session token later
                       (issue_session now rng user
                          ((f <$> users d) ++ extra) d)) = Some (f other)).
    { unfold fetchone, select_user_by_session.
      apply head_bind_first; [apply Hinner|].
      exists (f <$> l1), ((f <$> l2) ++ extra)%list. split_and!.
      - simpl. rewrite Hl, fmap_app, fmap_cons. by rewrite <- app_assoc.
      - rewrite sessions_after_issue, bind_app. intros Hnil.
        apply app_eq_nil in Hnil as [Hnil _]. apply Hlive.
        apply elem_of_nil_inv. intros x (s & Hx & Hs')%list_elem_of_bind.
        destruct (_ && _ && _) eqn:Hc in Hx; [|by apply elem_of_nil in Hx].
        apply (elem_of_nil (f other)). rewrite <- Hnil.
        apply list_elem_of_bind. exists s. split.
        + rewrite Hfid, Hc. by left.
        + apply list_elem_of_filter. split; [|done].
          apply andb_true_iff in Hc as [[Hu%bool_decide_eq_true _]%andb_true_iff _].
          congruence.
      - intros v (v0 & -> & Hv0)%list_elem_of_fmap.
        rewrite sessions_after_issue, bind_app. apply app_nil. split.
        + apply elem_of_nil_inv. intros x (s & Hx & Hs')%list_elem_of_bind.
          apply list_elem_of_filter in Hs' as [_ Hs'].
          apply (elem_of_nil v0). rewrite <- (Hdead v0 Hv0).
          apply list_elem_of_bind. exists s. split; [|done].
          rewrite Hfid in Hx.
          destruct (_ && _ && _); [by left|by apply elem_of_nil in Hx].
        + simpl. rewrite (bool_decide_eq_false_2
                           (new_session_token rng = token)) by congruence.
          by rewrite andb_false_r. }
    by rewrite Hhead'.
  - by destruct (Hf other) as [->|(? & ? & ->)].
Qed.

Lemma sign_in_keeps_other_sessions_witness :
  ∃ other',
    get_current_user 500 signed_in_request two_user_db
      = (Ok other', two_user_db) ∧
    User.user_id other' = "user_0123456789ab".
Proof.
  destruct (sign_in_keeps_other_sessions accepting_exchange 400 other_uuids
              (Some "bob") one_bot_db
              (session_created bob (new_session_token other_uuids))
              two_user_db 500 signed_in_request test_user)
    as (other' & Hauth & Hid & _).
  - reflexivity.
  - reflexivity.
  - discriminate.
  - discriminate.
  - by exists other'.
Defined.

(** ** What a resolved user is *)

Lemma get_current_user_Ok now request d user :
  get_current_user now request d = (Ok user, d) →
  ∃ token,
    get_session_token request = Some token ∧ token ≠ "" ∧
    user ∈ select_user_by_session token now d.
Proof.
  intros Hauth.
  destruct (get_session_token request) as [token|] eqn:Ht;
    [destruct (str_truthy token) eqn:Hs|];
    [|rewrite get_current_user_no_token in Hauth; [done|by rewrite Ht]..].
  apply str_truthy_true in Hs.
  rewrite (get_current_user_token _ _ _ _ Ht Hs) in Hauth.
  exists token. split_and!; [done..|].
  destruct (select_user_by_session token now d) as [|u l]; [done|].
  simpl in Hauth. injection Hauth as ->. by left.
Qed.

(** X28: session resolution is sound.  A user is resolved only from a
    non-empty token of the request, and is then a row of [users] that owns
    a session row with that token whose [expires_at] is still ahead. *)
Theorem resolved_user_has_live_session now request d user :
  get_current_user now request d = (Ok user, d) →
  ∃ token s,
    get_session_token request = Some token ∧ token ≠ "" ∧
    user ∈ users d ∧ s ∈ sessions d ∧
    Session.user_id s = User.user_id user ∧
    Session.session_token s = token ∧
    now < Session.expires_at s.
Proof.
  intros (token & Ht & Hne & Hin)%get_current_user_Ok.
  apply elem_of_select_user_by_session in Hin
    as (Hu & s & Hs & Hid & Htok & Hlive).
  by exists token, s.
Qed.

Lemma resolved_user_has_live_session_witness :
  ∃ token s,
    get_session_token bob_request = Some token ∧ token ≠ "" ∧
    bob ∈ users two_user_db ∧ s ∈ sessions two_user_db ∧
    Session.user_id s = User.user_id bob ∧
    Session.session_token s = token ∧
    500 < Session.expires_at s.
Proof.
  exact (resolved_user_has_live_session 500 bob_request two_user_db bob
           eq_refl).
Defined.

(** X29: [get_me] after CompleteOnboarding.  For a resolved caller, the
    profile [get_me] returns after the onboarding request has the
    [user_id], [email], [name] and [picture] it had before; when the store
    accepts the payload the request succeeds and the profile has
    [onboarding_completed] true, and when it rejects the payload the
    request ends with a server error and the flag is as it was. *)
Theorem get_me_after_onboarding now request body d user :
  get_current_user now request d = (Ok user, d) →
  let out := complete_onboarding now request body d in
  ∃ profile,
    get_me now request out.2 = (Ok profile, out.2) ∧
    (if jsonb_accepts (default (JObject ∅) (body !! "data"))
     then out.1 = Ok onboarding_done ∧
          UserResponse.onboarding_completed profile = true
     else out.1 = Raise internal_server_error ∧
          UserResponse.onboarding_completed profile
          = User.onboarding_completed user) ∧
    UserResponse.user_id profile = User.user_id user ∧
    UserResponse.email profile = User.email user ∧
    UserResponse.name profile = User.name user ∧
    UserResponse.picture profile = User.picture user.
Proof.
  intros Hauth out. subst out.
  rewrite (complete_onboarding_cases _ _ _ _ user Hauth).
  destruct (jsonb_accepts _); simpl.
  - eexists. split.
    + apply get_me_authenticated.
      by apply (get_current_user_after_onboarding now request d user).
    + done.
  - eexists. split; [by apply get_me_authenticated|done].
Qed.

Lemma get_me_after_onboarding_witness :
  ∃ profile,
    get_me 500 signed_in_request
      (complete_onboarding 500 signed_in_request first_onboarding
                           themed_db).2
    = (Ok profile,
       (complete_onboarding 500 signed_in_request first_onboarding
                            themed_db).2) ∧
    UserResponse.onboarding_completed profile = true.
Proof.
  destruct (get_me_after_onboarding 500 signed_in_request first_onboarding
              themed_db themed_user eq_refl)
    as (profile & Hme & Hflag & _).
  assert (Hok : jsonb_accepts
                  (default (JObject ∅) (first_onboarding !! "data")) = true)
    by reflexivity.
  rewrite Hok in Hflag. destruct Hflag as [_ Hflag].
  exists profile. split; [exact Hme|exact Hflag].
Defined.

(** ** Owners *)

Lemma user_ids_grow emergent_auth d op x :
  x ∈ User.user_id <$> users d →
  x ∈ User.user_id <$> users (step emergent_auth d op).
Proof.
  assert (Hid : ∀ t : list User.row,
            User.user_id <$> t = fst <$> (user_identity <$> t))
    by (intros t; by rewrite <- list_fmap_compose).
  rewrite !Hid. intros Hx.
  destruct (step_users_prefix emergent_auth d op) as [k ->].
  rewrite fmap_app. apply elem_of_app. by left.
Qed.

Lemma create_session_session_owner emergent_auth now rng session_id d s :
  s ∈ sessions (create_session emergent_auth now rng session_id d).2 →
  s ∈ sessions d ∨
  Session.user_id s
    ∈ User.user_id <$> users (create_session emergent_auth now rng
                                              session_id d).2.
Proof.
  destruct session_id as [sid|];
    [|rewrite create_session_no_id by done; by left].
  destruct (str_truthy sid) eqn:Hsid;
    [|rewrite create_session_no_id by done; by left].
  apply str_truthy_true in Hsid.
  destruct (exchange_session_id_cases emergent_auth sid d)
    as [[auth_data Hex]|[exn Hex]];
    [|rewrite (create_session_rejected _ _ _ _ _ exn) by done; by left].
  destruct (create_session_issues emergent_auth now rng sid d auth_data
              Hsid Hex) as (user & d1 & Huser & _ & Hsess & _ & _ & ->).
  cbn [snd]. intros [[Hin _]| ->]%elem_of_issued_sessions.
  - left. by rewrite <- Hsess.
  - right. simpl. by apply list_elem_of_fmap_2.
Qed.

Lemma step_owners_exist emergent_auth d op :
  owners_exist d → owners_exist (step emergent_auth d op).
Proof.
  intros [Hs Hb]. split.
  - intros s Hin.
    destruct op as [now rng session_id|request|now request e].
    + simpl in Hin |- *.
      destruct (create_session_session_owner _ _ _ _ _ _ Hin) as [Hold|Hnew];
        [|done].
      by apply (user_ids_grow emergent_auth d
                  (CreateSession now rng session_id)), Hs.
    + apply user_ids_grow. apply Hs. simpl in Hin.
      destruct (logout_sessions request d) as [Hl|[token Hl]];
        rewrite Hl in Hin; [done|].
      by apply elem_of_sessions_after_logout in Hin as [Hin _].
    + apply user_ids_grow. apply Hs. simpl in Hin.
      by rewrite call_sessions in Hin.
  - intros b Hin. apply user_ids_grow.
    destruct op as [now rng session_id|request|now request e]; simpl in Hin.
    + apply Hb. by rewrite create_session_bots in Hin.
    + apply Hb. by rewrite logout_bots in Hin.
    + destruct (get_current_user_cases now request d)
        as [[user Hauth]|[Hexn|Hexn]];
        [|rewrite (call_unauthenticated _ _ _ _ _ Hexn) in Hin;
          by apply Hb..].
      destruct (call_bots e now request d user Hauth)
        as [[_ Ht]|[(rng & bot_data & _ & Ht)|[(bot_id & updates & _ & Ht)
           |(bot_id & _ & Ht)]]]; rewrite Ht in Hin.
      * by apply Hb.
      * apply elem_of_app in Hin as [Hin| ->%list_elem_of_singleton];
          [by apply Hb|].
        apply get_current_user_Ok in Hauth as (token & _ & _ & Hsel).
        apply elem_of_select_user_by_session in Hsel as [Hu _].
        simpl. by apply list_elem_of_fmap_2.
      * unfold update_where in Hin. simpl in Hin.
        apply list_elem_of_fmap in Hin as (b0 & -> & Hb0).
        case_decide; [|by apply Hb].
        destruct (foldl_assign_scope now updates b0) as [_ ->]. by apply Hb.
      * apply list_elem_of_filter in Hin as [_ Hin]. by apply Hb.
Qed.

(** X30: no orphans.  In every store reached from the empty one by
    serving requests, each session row and each bot row carries the
    [user_id] of a row of [users]; and serving requests keeps that true of
    any store of which it is true. *)
Theorem owners_always_exist emergent_auth ops :
  (∀ d, owners_exist d → owners_exist (run emergent_auth ops d)) ∧
  owners_exist (run emergent_auth ops empty_db).
Proof.
  assert (Hrun : ∀ d, owners_exist d →
                      owners_exist (run emergent_auth ops d)).
  { unfold run. induction ops as [|op ops IH]; intros d Hinv; [done|].
    simpl. by apply IH, step_owners_exist. }
  split; [done|]. apply Hrun. split; by intros ? ?%elem_of_nil.
Qed.
